(** * The stockfighter order API (package [api], file [api/order.go])

    A shallow embedding of the five order endpoints of the client
    ([NewOrder], [CancelOrder], [OrderStatus], [AccountOrderStatus],
    [StockOrderStatus]) together with the part of [encoding/json],
    [net/http] and [strconv] they rely on, and the properties the
    specification states about them.

    Conventions.
    - Go's [int] is read at its 64-bit width and carried as [Z]; the
      endpoints do no arithmetic on it, so only the decoder's range check
      is written out.
    - Go's [error] interface is [option goerror], [None] being [nil].
    - A slice is [option (list _)]: [None] is the nil slice, [Some []] the
      empty slice that is not nil.
    - JSON text on the wire is carried as the value it denotes: a request
      body is the [jvalue] that [json.Marshal] encodes, a response body is
      what the decoder's scanner makes of it (a value, or the error it
      stops with). *)

From Stdlib Require Import ZArith List String Ascii Bool Lia.
From Stdlib Require Import DecimalString DecimalZ DecimalPos.
Import ListNotations.
Open Scope string_scope.
Open Scope Z_scope.

(** ** Errors *)

(** The error values that can reach the client.  [LibError] stands for the
    errors of the libraries ([net/http], [net/url], [io], the JSON scanner,
    [time]); [UnmarshalTypeError] is [json.UnmarshalTypeError]; [ApiError]
    is the value built by the package's own [apiError]. *)
Inductive goerror : Type :=
| LibError (pkg msg : string)
| UnmarshalTypeError (value target : string)
| ApiError (msg status : string).

(** ** strconv *)

Module Strconv.

(** [strconv.Itoa]: the decimal text of an integer, with a leading minus
    sign for negative numbers and no leading zeros. *)
Definition Itoa (n : Z) : string := NilZero.string_of_int (Z.to_int n).

(** The reading of decimal text back into an integer. *)
Definition Atoi (s : string) : option Z :=
  option_map Z.of_int (NilZero.int_of_string s).

Lemma Itoa_Atoi (n : Z) : Atoi (Itoa n) = Some n.
Proof.
  unfold Atoi, Itoa.
  rewrite NilZero.isi.
  - cbn [option_map]. f_equal. apply DecimalZ.of_to.
  - destruct n; cbn; try discriminate.
    intros [= H]. revert H. apply DecimalPos.Unsigned.to_uint_nonnil.
  - destruct n; cbn; try discriminate.
    intros [= H]. revert H. apply DecimalPos.Unsigned.to_uint_nonnil.
Qed.

End Strconv.

(** ** encoding/json *)

Module Json.

#[warnings="-register-all"]
Inductive jvalue : Type :=
| JNull
| JBool (b : bool)
| JInt (z : Z)              (* a number literal with integer syntax *)
| JFrac (lit : string)      (* a number literal with a fraction or an exponent *)
| JStr (s : string)
| JArr (l : list jvalue)
| JObj (kv : list (string * jvalue)).

(** What a decoder finds in a response body: the error its scanner stops
    with (bad syntax, end of input, a failed read), or the JSON value. *)
Inductive body : Type :=
| Malformed (e : goerror)
| Json (v : jvalue).

Definition kind (j : jvalue) : string :=
  match j with
  | JNull => "null"
  | JBool _ => "bool"
  | JInt _ | JFrac _ => "number"
  | JStr _ => "string"
  | JArr _ => "array"
  | JObj _ => "object"
  end.

(** *** Matching of object keys to struct fields

    [Unmarshal] matches an object key with the name a field is marshalled
    under, "preferring an exact match but also accepting a
    case-insensitive match".  Case-insensitive is Unicode simple folding;
    for the ASCII names of this package that is: ASCII letters without
    their case, U+017F (long s, bytes C5 BF) as [s], and U+212A (Kelvin
    sign, bytes E2 84 AA) as [k]. *)

Definition lower (a : ascii) : ascii :=
  let n := N_of_ascii a in
  if ((65 <=? n) && (n <=? 90))%N then ascii_of_N (n + 32) else a.

Definition is_byte (a : ascii) (n : N) : bool := (N_of_ascii a =? n)%N.

Fixpoint foldName (s : string) : string :=
  match s with
  | EmptyString => EmptyString
  | String c1 t =>
    match t with
    | EmptyString => String (lower c1) EmptyString
    | String c2 t2 =>
      if is_byte c1 197 && is_byte c2 191 then String "s" (foldName t2)
      else
        match t2 with
        | EmptyString => String (lower c1) (foldName t)
        | String c3 t3 =>
          if is_byte c1 226 && is_byte c2 132 && is_byte c3 170
          then String "k" (foldName t3)
          else String (lower c1) (foldName t)
        end
    end
  end.

Definition equalFold (a b : string) : bool := String.eqb (foldName a) (foldName b).

(** The field an object key selects: the first field whose name is the
    key, otherwise the first field whose name equals it under folding. *)
Definition find_field {F : Type} (fields : list F) (name : F -> string)
    (key : string) : option F :=
  match find (fun f => String.eqb (name f) key) fields with
  | Some f => Some f
  | None => find (fun f => equalFold (name f) key) fields
  end.

(** *** Decoding

    A decoder stores a JSON value into a Go value it is given.  A value of
    the wrong JSON type leaves the Go value as it is, is remembered as the
    saved error if it is the first such, and decoding goes on; an error
    returned by a type's own [UnmarshalJSON] stops the decoding at once.
    [dec_val] is the Go value as decoding leaves it in either case. *)

Record decoded (T : Type) : Type := Decoded {
  dec_val : T;
  dec_saved : option goerror;
  dec_abort : option goerror
}.
Arguments Decoded {T} _ _ _.
Arguments dec_val {T} _.
Arguments dec_saved {T} _.
Arguments dec_abort {T} _.

Definition decoder (T : Type) : Type := jvalue -> T -> option goerror -> decoded T.

Definition saveError (e : goerror) (saved : option goerror) : option goerror :=
  match saved with
  | None => Some e
  | Some _ => saved
  end.

Definition mismatch {T : Type} (j : jvalue) (target : string) (v : T)
    (saved : option goerror) : decoded T :=
  Decoded v (saveError (UnmarshalTypeError (kind j) target) saved) None.

Definition decode_string : decoder string := fun j v saved =>
  match j with
  | JStr s => Decoded s saved None
  | JNull => Decoded v saved None
  | _ => mismatch j "string" v saved
  end.

Definition fits_int (z : Z) : bool := (- 2 ^ 63 <=? z) && (z <? 2 ^ 63).

(** A number that is no integer of 64 bits is reported with its literal,
    which for an integer is its decimal text. *)
Definition bad_number (lit : string) (v : Z) (saved : option goerror) : decoded Z :=
  Decoded v (saveError (UnmarshalTypeError ("number " ++ lit) "int") saved) None.

Definition decode_int : decoder Z := fun j v saved =>
  match j with
  | JInt z => if fits_int z then Decoded z saved None
              else bad_number (Strconv.Itoa z) v saved
  | JFrac lit => bad_number lit v saved
  | JNull => Decoded v saved None
  | _ => mismatch j "int" v saved
  end.

Definition decode_bool : decoder bool := fun j v saved =>
  match j with
  | JBool b => Decoded b saved None
  | JNull => Decoded v saved None
  | _ => mismatch j "bool" v saved
  end.

(** The elements of an array, decoded in turn into the positions of the
    slice.  [old] holds the elements the slice has from the position at
    hand on: an element is decoded onto the one already there (so a
    repeated member meets the elements the earlier one left), or onto a
    zero element where the slice has none.  [acc] holds the elements
    decoded so far.  An abort leaves the slice with the element at hand as
    far as it was decoded and with the old elements after it; at the end
    of the array the slice is cut to the elements decoded.  What a slice
    once held beyond its length is taken to be zero. *)
Fixpoint decode_elems {T : Type} (zero : T) (elem : decoder T)
    (l : list jvalue) (old acc : list T) (saved : option goerror) : decoded (list T) :=
  match l with
  | [] => Decoded acc saved None
  | x :: rest =>
    let r := elem x (hd zero old) saved in
    match dec_abort r with
    | Some e => Decoded (acc ++ dec_val r :: tl old)%list (dec_saved r) (Some e)
    | None => decode_elems zero elem rest (tl old) (acc ++ [dec_val r])%list (dec_saved r)
    end
  end.

(** A slice: [null] makes it nil, an array is decoded into its positions
    (and makes it empty, not nil, when it has no element), anything else
    is a type mismatch. *)
Definition decode_slice {T : Type} (zero : T) (elem : decoder T) (target : string)
    : decoder (option (list T)) := fun j v saved =>
  match j with
  | JNull => Decoded None saved None
  | JArr l =>
    let old := match v with Some o => o | None => [] end in
    let r := decode_elems zero elem l old [] saved in
    Decoded (Some (dec_val r)) (dec_saved r) (dec_abort r)
  | _ => mismatch j target v saved
  end.

(** The members of an object in the order they are written: a key that
    selects no field is skipped, a later member for the same field is
    stored over the earlier one. *)
Fixpoint decode_members {T F : Type} (find : string -> option F)
    (store : F -> decoder T) (kv : list (string * jvalue)) (v : T)
    (saved : option goerror) : decoded T :=
  match kv with
  | [] => Decoded v saved None
  | (k, x) :: rest =>
    match find k with
    | None => decode_members find store rest v saved
    | Some f =>
      let r := store f x v saved in
      match dec_abort r with
      | Some e => r
      | None => decode_members find store rest (dec_val r) (dec_saved r)
      end
    end
  end.

Definition decode_struct {T F : Type} (target : string)
    (find : string -> option F) (store : F -> decoder T) : decoder T :=
  fun j v saved =>
  match j with
  | JNull => Decoded v saved None
  | JObj kv => decode_members find store kv v saved
  | _ => mismatch j target v saved
  end.

(** [Decode] of a [json.Decoder]: the error is the scanner's, or the one that
    stopped the decoding, or the saved one; without a value nothing is
    stored. *)
Definition Decode {T : Type} (d : decoder T) (b : body) (v : T) : T * option goerror :=
  match b with
  | Malformed e => (v, Some e)
  | Json j =>
    let r := d j v None in
    (dec_val r, match dec_abort r with Some e => Some e | None => dec_saved r end)
  end.

(** *** Encoding of strings

    [json.Marshal] writes a Go string as the JSON string of its UTF-8
    text; every byte that starts no well-formed UTF-8 sequence is written
    as U+FFFD (bytes EF BF BD) and the encoder goes on at the next byte, as
    [utf8.DecodeRuneInString] reads it.  The escapes the encoder writes
    denote the characters they stand for and do not show in the value. *)

Definition in_range (a : ascii) (lo hi : N) : bool :=
  ((lo <=? N_of_ascii a) && (N_of_ascii a <=? hi))%N.

(** The length of the sequence a first byte announces, and the range its
    second byte must lie in. *)
Definition utf8_first (a : ascii) : option (nat * N * N) :=
  if in_range a 194 223 then Some (2%nat, 128, 191)%N
  else if in_range a 224 224 then Some (3%nat, 160, 191)%N
  else if in_range a 225 236 then Some (3%nat, 128, 191)%N
  else if in_range a 237 237 then Some (3%nat, 128, 159)%N
  else if in_range a 238 239 then Some (3%nat, 128, 191)%N
  else if in_range a 240 240 then Some (4%nat, 144, 191)%N
  else if in_range a 241 243 then Some (4%nat, 128, 191)%N
  else if in_range a 244 244 then Some (4%nat, 128, 143)%N
  else None.

Definition replacement (t : string) : string :=
  String (ascii_of_N 239) (String (ascii_of_N 191) (String (ascii_of_N 189) t)).

Fixpoint toValidUTF8 (s : string) : string :=
  match s with
  | EmptyString => EmptyString
  | String a t =>
    if in_range a 0 127 then String a (toValidUTF8 t)
    else
      let bad := replacement (toValidUTF8 t) in
      match utf8_first a with
      | Some (2%nat, lo, hi) =>
        match t with
        | String b t2 =>
          if in_range b lo hi then String a (String b (toValidUTF8 t2)) else bad
        | _ => bad
        end
      | Some (3%nat, lo, hi) =>
        match t with
        | String b (String c t3) =>
          if in_range b lo hi && in_range c 128 191
          then String a (String b (String c (toValidUTF8 t3))) else bad
        | _ => bad
        end
      | Some (4%nat, lo, hi) =>
        match t with
        | String b (String c (String d t4)) =>
          if in_range b lo hi && in_range c 128 191 && in_range d 128 191
          then String a (String b (String c (String d (toValidUTF8 t4)))) else bad
        | _ => bad
        end
      | _ => bad
      end
  end.

(** *** Which bodies can reach a field *)

(** An object has a member whose key equals [name] under folding. *)
Definition has_key (name : string) (j : jvalue) : bool :=
  match j with
  | JObj kv => existsb (fun m => equalFold name (fst m)) kv
  | _ => false
  end.

Definition body_has_key (name : string) (b : body) : bool :=
  match b with
  | Json j => has_key name j
  | Malformed _ => false
  end.

(** No element of an array, and no element of an array that is a member
    of an object body, is an object with such a member. *)
Definition elements_lack_key (name : string) (j : jvalue) : bool :=
  match j with
  | JArr l => forallb (fun x => negb (has_key name x)) l
  | _ => true
  end.

Definition lists_lack_key (name : string) (b : body) : bool :=
  match b with
  | Json (JObj kv) => forallb (fun m => elements_lack_key name (snd m)) kv
  | _ => true
  end.

End Json.

(** ** Package api *)

Module Api.
Import Json.

(** What the package takes from outside [api/order.go]: [time.Time] with
    its zero value and its [UnmarshalJSON] (the time it leaves and the
    error it returns, for the JSON value it is handed); whether
    [http.NewRequest] can parse a URL; and the package constant [baseURL],
    which is declared in another file. *)
Class Extern : Type := {
  Time : Type;
  zeroTime : Time;
  Time_UnmarshalJSON : jvalue -> Time -> Time * option goerror;
  url_Parse_ok : string -> bool;
  baseURL : string
}.

Definition orderType : Type := string.
Definition orderDirection : Type := string.

(** Constants used for order creation. *)
Definition Limit : orderType := "limit".
Definition Market : orderType := "market".
Definition FillOrKill : orderType := "fill-or-kill".
Definition ImmediateOrCancel : orderType := "immediate-or-cancel".

Definition Buy : orderDirection := "buy".
Definition Sell : orderDirection := "sell".

Record orderRequest : Type := {
  rq_Account : string;
  rq_Venue : string;
  rq_Symbol : string;
  rq_Price : Z;
  rq_Quantity : Z;
  rq_Direction : orderDirection;
  rq_OrderType : orderType
}.

(** [json.Marshal] of an [orderRequest]: an object with one member per
    field, in the order of declaration, under the name of the field's
    [json] tag, the strings as the encoder writes them.  Strings and
    integers always encode, so the error is nil. *)
Definition Marshal_orderRequest (r : orderRequest) : jvalue * option goerror :=
  (JObj [ ("account", JStr (toValidUTF8 (rq_Account r)));
          ("venue", JStr (toValidUTF8 (rq_Venue r)));
          ("symbol", JStr (toValidUTF8 (rq_Symbol r)));
          ("price", JInt (rq_Price r));
          ("qty", JInt (rq_Quantity r));
          ("direction", JStr (toValidUTF8 (rq_Direction r)));
          ("orderType", JStr (toValidUTF8 (rq_OrderType r))) ],
   None).

Section Structs.
Context {X : Extern}.

Definition decode_time : decoder Time := fun j v saved =>
  let (t, e) := Time_UnmarshalJSON j v in Decoded t saved e.

(** The Fill struct represents a (partial) fulfillment of an order. *)
Record Fill : Type := {
  Fill_Price : Z;
  Fill_Quantity : Z;
  Fill_TS : Time
}.

Definition zeroFill : Fill := Build_Fill 0 0 zeroTime.

Inductive FillField : Type := FillPrice | FillQuantity | FillTS.

Definition Fill_fields : list FillField := [FillPrice; FillQuantity; FillTS].

Definition Fill_tag (f : FillField) : string :=
  match f with
  | FillPrice => "price"
  | FillQuantity => "qty"
  | FillTS => "ts"
  end.

Definition store_Fill (f : FillField) : decoder Fill := fun j v saved =>
  let '(Build_Fill p q t) := v in
  match f with
  | FillPrice =>
    let r := decode_int j p saved in
    Decoded (Build_Fill (dec_val r) q t) (dec_saved r) (dec_abort r)
  | FillQuantity =>
    let r := decode_int j q saved in
    Decoded (Build_Fill p (dec_val r) t) (dec_saved r) (dec_abort r)
  | FillTS =>
    let r := decode_time j t saved in
    Decoded (Build_Fill p q (dec_val r)) (dec_saved r) (dec_abort r)
  end.

Definition decode_Fill : decoder Fill :=
  decode_struct "Fill" (find_field Fill_fields Fill_tag) store_Fill.

(** The Order struct contains information about an order. *)
Record Order : Type := {
  Account : string;
  Venue : string;
  Symbol : string;
  Price : Z;
  OriginalQuantity : Z;
  Quantity : Z;
  Direction : orderDirection;
  OrderType : orderType;
  ID : Z;
  TS : Time;
  Fills : option (list Fill);
  TotalFilled : Z;
  Open : bool
}.

Definition zeroOrder : Order :=
  Build_Order "" "" "" 0 0 0 "" "" 0 zeroTime None 0 false.

Inductive OrderField : Type :=
| FAccount | FVenue | FSymbol | FPrice | FOriginalQuantity | FQuantity
| FDirection | FOrderType | FID | FTS | FFills | FTotalFilled | FOpen.

Definition Order_fields : list OrderField :=
  [FAccount; FVenue; FSymbol; FPrice; FOriginalQuantity; FQuantity;
   FDirection; FOrderType; FID; FTS; FFills; FTotalFilled; FOpen].

(** The [json] tags of [Order], as they are spelled in the source. *)
Definition Order_tag (f : OrderField) : string :=
  match f with
  | FAccount => "account"
  | FVenue => "venue"
  | FSymbol => "symbol"
  | FPrice => "price"
  | FOriginalQuantity => "orignialQty"
  | FQuantity => "qty"
  | FDirection => "direction"
  | FOrderType => "orderType"
  | FID => "id"
  | FTS => "ts"
  | FFills => "fills"
  | FTotalFilled => "totalFilled"
  | FOpen => "open"
  end.

Definition store_Order (f : OrderField) : decoder Order := fun j v saved =>
  let '(Build_Order a ve sy p oq q d ot i t fs tf o) := v in
  let put {T : Type} (r : decoded T) (w : T -> Order) : decoded Order :=
    Decoded (w (dec_val r)) (dec_saved r) (dec_abort r) in
  match f with
  | FAccount => put (decode_string j a saved)
      (fun x => Build_Order x ve sy p oq q d ot i t fs tf o)
  | FVenue => put (decode_string j ve saved)
      (fun x => Build_Order a x sy p oq q d ot i t fs tf o)
  | FSymbol => put (decode_string j sy saved)
      (fun x => Build_Order a ve x p oq q d ot i t fs tf o)
  | FPrice => put (decode_int j p saved)
      (fun x => Build_Order a ve sy x oq q d ot i t fs tf o)
  | FOriginalQuantity => put (decode_int j oq saved)
      (fun x => Build_Order a ve sy p x q d ot i t fs tf o)
  | FQuantity => put (decode_int j q saved)
      (fun x => Build_Order a ve sy p oq x d ot i t fs tf o)
  | FDirection => put (decode_string j d saved)
      (fun x => Build_Order a ve sy p oq q x ot i t fs tf o)
  | FOrderType => put (decode_string j ot saved)
      (fun x => Build_Order a ve sy p oq q d x i t fs tf o)
  | FID => put (decode_int j i saved)
      (fun x => Build_Order a ve sy p oq q d ot x t fs tf o)
  | FTS => put (decode_time j t saved)
      (fun x => Build_Order a ve sy p oq q d ot i x fs tf o)
  | FFills => put (decode_slice zeroFill decode_Fill "[]Fill" j fs saved)
      (fun x => Build_Order a ve sy p oq q d ot i t x tf o)
  | FTotalFilled => put (decode_int j tf saved)
      (fun x => Build_Order a ve sy p oq q d ot i t fs x o)
  | FOpen => put (decode_bool j o saved)
      (fun x => Build_Order a ve sy p oq q d ot i t fs tf x)
  end.

Definition decode_Order : decoder Order :=
  decode_struct "Order" (find_field Order_fields Order_tag) store_Order.

Record allOrdersStatusResult : Type := {
  Ok : bool;
  res_Venue : string;
  Orders : option (list Order)
}.

Definition zeroAllOrdersStatusResult : allOrdersStatusResult :=
  Build_allOrdersStatusResult false "" None.

Inductive AllOrdersField : Type := FOk | FResVenue | FOrders.

Definition allOrders_fields : list AllOrdersField := [FOk; FResVenue; FOrders].

Definition allOrders_tag (f : AllOrdersField) : string :=
  match f with
  | FOk => "ok"
  | FResVenue => "venue"
  | FOrders => "orders"
  end.

Definition store_allOrders (f : AllOrdersField) : decoder allOrdersStatusResult :=
  fun j v saved =>
  let '(Build_allOrdersStatusResult k ve os) := v in
  match f with
  | FOk =>
    let r := decode_bool j k saved in
    Decoded (Build_allOrdersStatusResult (dec_val r) ve os) (dec_saved r) (dec_abort r)
  | FResVenue =>
    let r := decode_string j ve saved in
    Decoded (Build_allOrdersStatusResult k (dec_val r) os) (dec_saved r) (dec_abort r)
  | FOrders =>
    let r := decode_slice zeroOrder decode_Order "[]Order" j os saved in
    Decoded (Build_allOrdersStatusResult k ve (dec_val r)) (dec_saved r) (dec_abort r)
  end.

Definition decode_allOrdersStatusResult : decoder allOrdersStatusResult :=
  decode_struct "allOrdersStatusResult"
    (find_field allOrders_fields allOrders_tag) store_allOrders.

(** Modelled from the spec: the struct [errorResult] is declared outside
    [api/order.go]; the endpoints read its field [Error], the message of
    the venue's error body, which the venue sends under the key [error]. *)
Record errorResult : Type := {
  Error : string
}.

Definition zeroErrorResult : errorResult := Build_errorResult "".

Definition store_errorResult (f : unit) : decoder errorResult := fun j v saved =>
  let r := decode_string j (Error v) saved in
  Decoded (Build_errorResult (dec_val r)) (dec_saved r) (dec_abort r).

Definition decode_errorResult : decoder errorResult :=
  decode_struct "errorResult" (find_field [tt] (fun _ => "error")) store_errorResult.

End Structs.

(** ** The client, its state and what a call does *)

Section Client.
Context {X : Extern}.

(** [http.Header] *)
Definition Header_t : Type := list (string * list string).

Record Request : Type := {
  Method : string;
  URL : string;
  Header : Header_t;
  ReqBody : option jvalue
}.

Record Response : Type := {
  StatusCode : Z;
  Status : string;
  Body : body
}.

(** What [Do] of [http.Client] returns: the response pointer and the
    error, either of which may be nil. *)
Definition DoResult : Type := (option Response * option goerror)%type.

Inductive field : Type := Fc | Fh | Faccount | Fvenue | Fsymbol.

(** What a call does that can be seen from outside its result: it takes
    and releases the read lock, reads fields of the instance, builds a
    request, sends it, and hands errors to the accumulator. *)
Inductive event : Type :=
| EvRLock
| EvRUnlock
| EvRead (f : field)
| EvNewRequest (method url : string)
| EvDo (req : Request) (res : DoResult)
| EvSetErr (e : option goerror).

(** The HTTP client with the network behind it: what a request is
    answered with may depend on all that happened before. *)
Definition Client : Type := list event -> Request -> DoResult.

(** Modelled from the spec: the struct [Instance] is declared outside
    [api/order.go].  It is the client configuration (account, venue,
    symbol, the header [h] that carries the API key, the HTTP client [c])
    guarded by a reader/writer lock, and the shared error accumulator
    [err].  [rlocks] is the number of read locks held on the embedded
    lock. *)
Record Instance : Type := {
  rlocks : nat;
  c : Client;
  h : Header_t;
  account : string;
  venue : string;
  symbol : string;
  err : option goerror
}.

(** A call runs on an instance, after the events [past], and adds its own
    events to [now]. *)
Record State : Type := {
  inst : Instance;
  past : list event;
  now : list event
}.

(** A call returns a value, or panics; either way it leaves a state. *)
Inductive Outcome (A : Type) : Type :=
| Ret (a : A) (s : State)
| Panic (s : State).
Arguments Ret {A} _ _.
Arguments Panic {A} _.

Definition M (A : Type) : Type := State -> Outcome A.

Definition ret {A : Type} (a : A) : M A := fun s => Ret a s.

Definition bind {A B : Type} (m : M A) (k : A -> M B) : M B := fun s =>
  match m s with
  | Ret a s' => k a s'
  | Panic s' => Panic s'
  end.

Definition panic {A : Type} : M A := fun s => Panic s.

Notation "x <- m ;; k" := (bind m (fun x => k))
  (at level 61, m at next level, right associativity).
Notation "' p <- m ;; k" := (bind m (fun x => match x with p => k end))
  (at level 61, p pattern, m at next level, right associativity).
Notation "m ;; k" := (bind m (fun _ => k))
  (at level 61, right associativity).

Definition log (e : event) (s : State) : State :=
  {| inst := inst s; past := past s; now := (now s ++ [e])%list |}.

Definition with_rlocks (n : nat) (i : Instance) : Instance :=
  {| rlocks := n; c := c i; h := h i; account := account i;
     venue := venue i; symbol := symbol i; err := err i |}.

Definition with_err (e : option goerror) (i : Instance) : Instance :=
  {| rlocks := rlocks i; c := c i; h := h i; account := account i;
     venue := venue i; symbol := symbol i; err := e |}.

Definition on_inst (f : Instance -> Instance) (s : State) : State :=
  {| inst := f (inst s); past := past s; now := now s |}.

(** [i.RLock()] *)
Definition RLock : M unit := fun s =>
  Ret tt (log EvRLock (on_inst (fun i => with_rlocks (S (rlocks i)) i) s)).

(** [i.RUnlock()]; on a lock that is not read-locked the runtime stops
    the program. *)
Definition RUnlock : M unit := fun s =>
  match rlocks (inst s) with
  | O => Panic s
  | S n => Ret tt (log EvRUnlock (on_inst (with_rlocks n) s))
  end.

Definition load {A : Type} (f : field) (get : Instance -> A) : M A := fun s =>
  Ret (get (inst s)) (log (EvRead f) s).

Definition get_c : M Client := load Fc c.
Definition get_h : M Header_t := load Fh h.
Definition get_account : M string := load Faccount account.
Definition get_venue : M string := load Fvenue venue.
Definition get_symbol : M string := load Fsymbol symbol.

(** Modelled from the spec: the method [setErr] is declared outside
    [api/order.go].  "Every call records at most the first error
    encountered into a shared accumulator; subsequent calls do not clear it
    automatically": an error is stored when it is not nil and the
    accumulator is empty, and nothing else changes the accumulator. *)
Definition setErr (e : option goerror) : M unit := fun s =>
  let s' := log (EvSetErr e) s in
  match e, err (inst s) with
  | Some _, None => Ret tt (on_inst (with_err e) s')
  | _, _ => Ret tt s'
  end.

(** Modelled from the spec: the function [apiError] is declared outside
    [api/order.go].  "Non-200 responses populate the error field with the
    venue's message": it makes an error, never nil, out of the message of
    the error body and the status of the response. *)
Definition apiError (msg status : string) : option goerror :=
  Some (ApiError msg status).

(** [http.NewRequest]: nil (with an error the endpoints drop) when the URL
    does not parse; the three methods used here are all valid. *)
Definition NewRequest (method url : string) (b : option jvalue) : M (option Request) :=
  fun s =>
  Ret (if url_Parse_ok url
       then Some {| Method := method; URL := url; Header := []; ReqBody := b |}
       else None)
      (log (EvNewRequest method url) s).

(** [req.Header = i.h]; a nil [req] panics. *)
Definition set_Header (req : option Request) : M Request :=
  hdr <- get_h ;;
  match req with
  | None => panic
  | Some r => ret {| Method := Method r; URL := URL r; Header := hdr; ReqBody := ReqBody r |}
  end.

(** [i.c.Do(req)] *)
Definition Do (req : Request) : M DoResult :=
  cl <- get_c ;;
  fun s =>
    let res := cl (past s ++ now s)%list req in
    Ret res (log (EvDo req res) s).

(** The dereference of a pointer that may be nil. *)
Definition deref {A : Type} (p : option A) : M A :=
  match p with
  | Some x => ret x
  | None => panic
  end.

(** NewOrder makes a new order and submits it to the API. *)
Definition NewOrder (price quantity : Z) (direction : orderDirection)
    (orderType_ : orderType) : M Order :=
  let v := zeroOrder in
  RLock ;;
  ac <- get_account ;; ve <- get_venue ;; sy <- get_symbol ;;
  let '(b, jsonErr) :=
    Marshal_orderRequest
      {| rq_Account := ac; rq_Venue := ve; rq_Symbol := sy; rq_Price := price;
         rq_Quantity := quantity; rq_Direction := direction;
         rq_OrderType := orderType_ |} in
  setErr jsonErr ;;
  ve <- get_venue ;; sy <- get_symbol ;;
  let url := baseURL ++ "venues/" ++ ve ++ "/stocks/" ++ sy ++ "/orders" in
  RUnlock ;;
  req <- NewRequest "POST" url (Some b) ;;
  req <- set_Header req ;;
  '(res, httpErr) <- Do req ;;
  setErr httpErr ;;
  res <- deref res ;;
  let dec := Body res in
  '(v, jsonErr) <-
    (if StatusCode res =? 200 then
       ret (Decode decode_Order dec v)
     else
       let '(v', jsonErr) := Decode decode_errorResult dec zeroErrorResult in
       setErr (apiError (Error v') (Status res)) ;;
       ret (v, jsonErr)) ;;
  setErr jsonErr ;;
  ret v.

(** CancelOrder cancels an order given its id. *)
Definition CancelOrder (ID_ : Z) : M Order :=
  let v := zeroOrder in
  RLock ;;
  ve <- get_venue ;; sy <- get_symbol ;;
  req <- NewRequest "DELETE"
           (baseURL ++ "venues/" ++ ve ++ "/stocks/" ++ sy ++ "/orders/"
              ++ Strconv.Itoa ID_) None ;;
  RUnlock ;;
  req <- set_Header req ;;
  '(res, httpErr) <- Do req ;;
  setErr httpErr ;;
  res <- deref res ;;
  let dec := Body res in
  '(v, jsonErr) <-
    (if StatusCode res =? 200 then
       ret (Decode decode_Order dec v)
     else
       let '(v', jsonErr) := Decode decode_errorResult dec zeroErrorResult in
       setErr (apiError (Error v') (Status res)) ;;
       ret (v, jsonErr)) ;;
  setErr jsonErr ;;
  ret v.

(** OrderStatus returns the current order status for the given order id. *)
Definition OrderStatus (ID_ : Z) : M Order :=
  let v := zeroOrder in
  RLock ;;
  ve <- get_venue ;; sy <- get_symbol ;;
  req <- NewRequest "GET"
           (baseURL ++ "venues/" ++ ve ++ "/stocks/" ++ sy ++ "/orders/"
              ++ Strconv.Itoa ID_) None ;;
  RUnlock ;;
  req <- set_Header req ;;
  '(res, httpErr) <- Do req ;;
  setErr httpErr ;;
  res <- deref res ;;
  let dec := Body res in
  '(v, jsonErr) <-
    (if StatusCode res =? 200 then
       ret (Decode decode_Order dec v)
     else
       let '(v', jsonErr) := Decode decode_errorResult dec zeroErrorResult in
       setErr (apiError (Error v') (Status res)) ;;
       ret (v, jsonErr)) ;;
  setErr jsonErr ;;
  ret v.

(** AccountOrderStatus returns the current status for all orders of the
    current account on the current venue. *)
Definition AccountOrderStatus : M (option (list Order)) :=
  RLock ;;
  ve <- get_venue ;; ac <- get_account ;;
  req <- NewRequest "GET"
           (baseURL ++ "venues/" ++ ve ++ "/accounts/" ++ ac ++ "/orders") None ;;
  RUnlock ;;
  req <- set_Header req ;;
  '(res, httpErr) <- Do req ;;
  setErr httpErr ;;
  res <- deref res ;;
  let dec := Body res in
  if StatusCode res =? 200 then
    let '(v, jsonErr) :=
      Decode decode_allOrdersStatusResult dec zeroAllOrdersStatusResult in
    ret (Orders v)
  else
    let '(v, jsonErr) := Decode decode_errorResult dec zeroErrorResult in
    setErr (apiError (Error v) (Status res)) ;;
    setErr jsonErr ;;
    ret None.

(** StockOrderStatus returns the current status for all orders of the
    current stock on the current venue and account. *)
Definition StockOrderStatus : M (option (list Order)) :=
  RLock ;;
  ve <- get_venue ;; ac <- get_account ;; sy <- get_symbol ;;
  req <- NewRequest "GET"
           (baseURL ++ "venues/" ++ ve ++ "/accounts/" ++ ac ++ "/stocks/" ++ sy
              ++ "/orders") None ;;
  RUnlock ;;
  req <- set_Header req ;;
  '(res, httpErr) <- Do req ;;
  setErr httpErr ;;
  res <- deref res ;;
  let dec := Body res in
  if StatusCode res =? 200 then
    let '(v, jsonErr) :=
      Decode decode_allOrdersStatusResult dec zeroAllOrdersStatusResult in
    ret (Orders v)
  else
    let '(v, jsonErr) := Decode decode_errorResult dec zeroErrorResult in
    setErr (apiError (Error v) (Status res)) ;;
    setErr jsonErr ;;
    ret None.

(** *** The five endpoints as one family *)

Inductive Endpoint : Type :=
| CallNewOrder (price quantity : Z) (direction : orderDirection) (orderType_ : orderType)
| CallCancelOrder (ID_ : Z)
| CallOrderStatus (ID_ : Z)
| CallAccountOrderStatus
| CallStockOrderStatus.

Inductive Result : Type :=
| AnOrder (v : Order)
| SomeOrders (l : option (list Order)).

Definition run (op : Endpoint) : M Result :=
  match op with
  | CallNewOrder p q d t => v <- NewOrder p q d t ;; ret (AnOrder v)
  | CallCancelOrder n => v <- CancelOrder n ;; ret (AnOrder v)
  | CallOrderStatus n => v <- OrderStatus n ;; ret (AnOrder v)
  | CallAccountOrderStatus => l <- AccountOrderStatus ;; ret (SomeOrders l)
  | CallStockOrderStatus => l <- StockOrderStatus ;; ret (SomeOrders l)
  end.

(** A call of an endpoint on instance [i] after the events [hist]. *)
Definition call (op : Endpoint) (i : Instance) (hist : list event) : Outcome Result :=
  run op {| inst := i; past := hist; now := [] |}.

Definition final {A : Type} (o : Outcome A) : State :=
  match o with
  | Ret _ s => s
  | Panic s => s
  end.

Definition returned {A : Type} (o : Outcome A) : option A :=
  match o with
  | Ret a _ => Some a
  | Panic _ => None
  end.

Definition panicked {A : Type} (o : Outcome A) : bool :=
  match o with
  | Ret _ _ => false
  | Panic _ => true
  end.

(** The accumulator and the events a call leaves. *)
Definition err_after {A : Type} (o : Outcome A) : option goerror := err (inst (final o)).
Definition events {A : Type} (o : Outcome A) : list event := now (final o).

(** The zero value of an endpoint's result type. *)
Definition zero_result (op : Endpoint) : Result :=
  match op with
  | CallNewOrder _ _ _ _ | CallCancelOrder _ | CallOrderStatus _ => AnOrder zeroOrder
  | CallAccountOrderStatus | CallStockOrderStatus => SomeOrders None
  end.

(** The endpoints that return a list of orders. *)
Definition list_endpoint (op : Endpoint) : bool :=
  match op with
  | CallAccountOrderStatus | CallStockOrderStatus => true
  | _ => false
  end.

(** Every order of a slice has [OriginalQuantity] zero. *)
Definition all_zero (os : option (list Order)) : Prop :=
  match os with
  | Some l => Forall (fun o => OriginalQuantity o = 0) l
  | None => True
  end.

(** *** Reading the events of a call *)

(** The round trips: each request sent, with what came back. *)
Fixpoint round_trips (t : list event) : list (Request * DoResult) :=
  match t with
  | [] => []
  | EvDo r res :: t' => (r, res) :: round_trips t'
  | _ :: t' => round_trips t'
  end.

(** The requests built: method and URL handed to [http.NewRequest]. *)
Fixpoint built (t : list event) : list (string * string) :=
  match t with
  | [] => []
  | EvNewRequest m u :: t' => (m, u) :: built t'
  | _ :: t' => built t'
  end.

(** Method and URL of the requests sent. *)
Definition sent (t : list event) : list (string * string) :=
  map (fun rt => (Method (fst rt), URL (fst rt))) (round_trips t).

(** The message of an error body: the field [Error] as the decoder leaves
    it. *)
Definition venue_message (res : Response) : string :=
  Error (fst (Decode decode_errorResult (Body res) zeroErrorResult)).

(** Method and URL of each endpoint as the specification lists them, to
    compare with what the endpoints build. *)
Definition listed_target (op : Endpoint) (i : Instance) : string * string :=
  match op with
  | CallNewOrder _ _ _ _ =>
    ("POST", baseURL ++ "venues/" ++ venue i ++ "/stocks/" ++ symbol i ++ "/orders")
  | CallCancelOrder n =>
    ("DELETE", baseURL ++ "venues/" ++ venue i ++ "/stocks/" ++ symbol i
                 ++ "/orders/" ++ Strconv.Itoa n)
  | CallOrderStatus n =>
    ("GET", baseURL ++ "venues/" ++ venue i ++ "/stocks/" ++ symbol i
              ++ "/orders/" ++ Strconv.Itoa n)
  | CallAccountOrderStatus =>
    ("GET", baseURL ++ "venues/" ++ venue i ++ "/accounts/" ++ account i ++ "/orders")
  | CallStockOrderStatus =>
    ("GET", baseURL ++ "venues/" ++ venue i ++ "/accounts/" ++ account i
              ++ "/stocks/" ++ symbol i ++ "/orders")
  end.

(** The errors handed to the accumulator, in the order they were. *)
Fixpoint reported (t : list event) : list goerror :=
  match t with
  | [] => []
  | EvSetErr (Some e) :: t' => e :: reported t'
  | _ :: t' => reported t'
  end.

(** The lock discipline, checked along the events with the number of read
    locks held: account, venue and symbol are read under the lock only;
    under the lock nothing happens but such reads and the building of the
    request (and, in [NewOrder], the report of the marshalling error);
    [c] and [h] are read and the request is sent with no lock held; and no
    lock is held at the end. *)
Definition guarded (f : field) : bool :=
  match f with
  | Faccount | Fvenue | Fsymbol => true
  | Fc | Fh => false
  end.

Fixpoint lock_discipline (held : nat) (t : list event) : bool :=
  match t with
  | [] => Nat.eqb held 0
  | EvRLock :: t' => lock_discipline (S held) t'
  | EvRUnlock :: t' =>
    match held with
    | O => false
    | S n => lock_discipline n t'
    end
  | EvRead f :: t' => Bool.eqb (guarded f) (negb (Nat.eqb held 0)) && lock_discipline held t'
  | EvNewRequest _ _ :: t' => lock_discipline held t'
  | EvDo _ _ :: t' => Nat.eqb held 0 && lock_discipline held t'
  | EvSetErr _ :: t' => lock_discipline held t'
  end.

Definition count_rlocks (t : list event) : nat :=
  List.length (filter (fun e => match e with EvRLock => true | _ => false end) t).

End Client.

Arguments Ret {A} _ _.
Arguments Panic {A} _.

(** *** A concrete setting

    A library and an instance to run the endpoints on.  Of [url.Parse]
    the setting keeps the check the texts built here can fail: every
    percent sign must start an escape of two hexadecimal digits. *)

Definition is_hex (a : ascii) : bool :=
  let n := N_of_ascii a in
  ((48 <=? n) && (n <=? 57) || (65 <=? n) && (n <=? 70) || (97 <=? n) && (n <=? 102))%N.

Fixpoint escapes_ok (s : string) : bool :=
  match s with
  | EmptyString => true
  | String a t =>
    if is_byte a 37 then
      match t with
      | String x (String y t') => is_hex x && is_hex y && escapes_ok t'
      | _ => false
      end
    else escapes_ok t
  end.

Definition sample_lib : Extern := {|
  Time := string;
  zeroTime := "";
  Time_UnmarshalJSON := fun j t =>
    match j with
    | JStr s => (s, None)
    | JNull => (t, None)
    | _ => (t, Some (LibError "time" "input is not a JSON string"))
    end;
  url_Parse_ok := escapes_ok;
  baseURL := "https://api.stockfighter.io/ob/api/"
|}.

(** A venue that answers every request the same way. *)
Definition always (r : DoResult) : Client :=
  fun _ _ => r.

Definition sample_instance (cl : Client) : Instance := {|
  rlocks := 0;
  c := cl;
  h := [("X-Starfighter-Authorization", ["key"])];
  account := "EXB123456";
  venue := "TESTEX";
  symbol := "FOOBAR";
  err := None
|}.

Definition answer (code : Z) (status : string) (b : body) : DoResult :=
  (Some {| StatusCode := code; Status := status; Body := b |}, None).

(** Three answers of the venue: an error body with status 401, a body
    that ends before its JSON value does, and no answer at all. *)
Definition refused : DoResult :=
  answer 401 "401 Unauthorized"
    (Json (JObj [("ok", JBool false); ("error", JStr "bad key")])).

Definition cut_short : DoResult :=
  answer 200 "200 OK" (Malformed (LibError "io" "unexpected EOF")).

Definition unreachable : DoResult :=
  (None, Some (LibError "net/http" "connection refused")).

(** An instance whose venue holds a percent sign that starts no escape. *)
Definition bad_venue : Instance := {|
  rlocks := 0;
  c := always refused;
  h := [];
  account := "EXB123456";
  venue := "%zz";
  symbol := "FOOBAR";
  err := None
|}.

(** The request [NewOrder] builds on the sample instance for a limit buy
    of 10 at 100. *)
Definition sample_order : Request := {|
  Method := "POST";
  URL := "https://api.stockfighter.io/ob/api/venues/TESTEX/stocks/FOOBAR/orders";
  Header := [("X-Starfighter-Authorization", ["key"])];
  ReqBody :=
    Some (JObj [ ("account", JStr "EXB123456");
                 ("venue", JStr "TESTEX");
                 ("symbol", JStr "FOOBAR");
                 ("price", JInt 100);
                 ("qty", JInt 10);
                 ("direction", JStr "buy");
                 ("orderType", JStr "limit") ])
|}.

(** The responses behind the answers above, and the five endpoints on
    sample arguments. *)
Definition refused_response : Response :=
  {| StatusCode := 401; Status := "401 Unauthorized";
     Body := Json (JObj [("ok", JBool false); ("error", JStr "bad key")]) |}.

Definition cut_short_response : Response :=
  {| StatusCode := 200; Status := "200 OK";
     Body := Malformed (LibError "io" "unexpected EOF") |}.

Definition on_all_five (P : Endpoint -> Prop) : Prop :=
  P (CallNewOrder 100 10 Buy Limit) /\ P (CallCancelOrder 7) /\
  P (CallOrderStatus 7) /\ P CallAccountOrderStatus /\ P CallStockOrderStatus.

(** ** More of what a call does *)

Section Further.
Context {X : Extern}.

(** The first error of a list of errors, nil ones skipped. *)
Fixpoint first_error (l : list (option goerror)) : option goerror :=
  match l with
  | [] => None
  | Some e :: _ => Some e
  | None :: l' => first_error l'
  end.

(** What an endpoint makes of the body of a 200 response: the value the
    decoder leaves in the result, whether or not it reports an error. *)
Definition success_value (op : Endpoint) (b : body) : Result :=
  if list_endpoint op
  then SomeOrders (Orders (fst (Decode decode_allOrdersStatusResult b zeroAllOrdersStatusResult)))
  else AnOrder (fst (Decode decode_Order b zeroOrder)).

(** The decode error of a 200 response that reaches [setErr]: the list
    endpoints return before they report theirs. *)
Definition success_error (op : Endpoint) (b : body) : option goerror :=
  if list_endpoint op then None else snd (Decode decode_Order b zeroOrder).

(** The orders of a result. *)
Definition orders_of (r : Result) : list Order :=
  match r with
  | AnOrder v => [v]
  | SomeOrders (Some l) => l
  | SomeOrders None => []
  end.

(** A member whose key selects a field. *)
Definition selects {F : Type} (find : string -> option F) (m : string * jvalue) : bool :=
  match find (fst m) with
  | Some _ => true
  | None => false
  end.

(** A body that is a JSON object. *)
Definition is_object (b : body) : bool :=
  match b with
  | Json (JObj _) => true
  | _ => false
  end.

End Further.

(** ** Calls one after another *)

Section Sessions.
Context {X : Extern}.

Notation "x <- m ;; k" := (bind m (fun x => k))
  (at level 61, m at next level, right associativity).

(** Endpoints called one after another on the same instance; a panic ends
    the run. *)
Fixpoint calls (ops : list Endpoint) : M (list Result) :=
  match ops with
  | [] => ret []
  | op :: rest => r <- run op ;; rs <- calls rest ;; ret (r :: rs)
  end.

Definition session (ops : list Endpoint) (i : Instance) (hist : list event)
    : Outcome (list Result) :=
  calls ops {| inst := i; past := hist; now := [] |}.

(** Modelled from the spec: the method [Err] is declared outside
    [api/order.go]; the sample program calls it after [NewOrder].  "Callers
    must check the accumulator after each call of interest": it returns
    the accumulator and changes nothing. *)
Definition Err : M (option goerror) := fun s => Ret (err (inst s)) s.

(** What the sample program hands to the standard output: a description
    and the value printed after it. *)
Inductive Shown : Type :=
| ShownNothing
| ShownError (e : option goerror)
| ShownOrder (v : Order).

(** The part of [main] that uses the order endpoints (from "make an
    order" to the end).  What comes before it in [main] (the market data
    calls, which are declared outside the files at hand) is the instance,
    the history and the last price it starts from.  The result is what it
    has printed when it returns; the five seconds it sleeps are left
    out. *)
Definition main_orders (LastPrice : Z) : M (list (string * Shown)) :=
  order <- NewOrder LastPrice 100 Buy Limit ;;
  e <- Err ;;
  match e with
  | Some _ =>
    e' <- Err ;;
    ret [("we got an error:", ShownError e')]
  | None =>
    let out := [("created order:", ShownOrder order);
                ("waiting for 5 seconds before querying order status", ShownNothing)] in
    st <- OrderStatus (ID order) ;;
    let out := (out ++ [("status of order:", ShownOrder st)])%list in
    ca <- CancelOrder (ID order) ;;
    ret (out ++ [("canceled order:", ShownOrder ca)])%list
  end.

Definition main_run (LastPrice : Z) (i : Instance) (hist : list event)
    : Outcome (list (string * Shown)) :=
  main_orders LastPrice {| inst := i; past := hist; now := [] |}.

(** *** Running in the middle of a history

    A computation started after the events [n] of the same run does what
    it does when started afresh with [n] moved into the history, and adds
    its events after [n]. *)
Definition reframe {A : Type} (p n : list event) (o : Outcome A) : Outcome A :=
  match o with
  | Ret a s => Ret a {| inst := inst s; past := p; now := (n ++ now s)%list |}
  | Panic s => Panic {| inst := inst s; past := p; now := (n ++ now s)%list |}
  end.

Definition framed {A : Type} (m : M A) : Prop :=
  forall (i : Instance) (p n : list event),
    m {| inst := i; past := p; now := n |} =
    reframe p n (m {| inst := i; past := (p ++ n)%list; now := [] |}).

End Sessions.

Arguments reframe {A} _ _ _.

(** ** Properties of the endpoints *)

Section Properties.
Context {X : Extern}.

Lemma Marshal_orderRequest_nil (r : orderRequest) :
  snd (Marshal_orderRequest r) = None.
Proof. reflexivity. Qed.

(** Symbolic execution of a call: the endpoint is unfolded down to the
    answers of the outside world (does the URL parse, what does the client
    return, is the status 200, what does the decoder make of the body, is
    the accumulator empty), and each of them is split on in turn. *)
Ltac exec :=
  cbv beta iota zeta delta
    [call run NewOrder CancelOrder OrderStatus AccountOrderStatus
     StockOrderStatus bind ret panic setErr Do set_Header NewRequest
     get_c get_h get_account get_venue get_symbol load RLock RUnlock
     deref apiError log on_inst with_err with_rlocks
     err_after events final returned panicked zero_result sent listed_target];
  cbn [inst past now err rlocks c h account venue symbol fst snd
       Method URL Header ReqBody app reported round_trips built map hd_error
       lock_discipline count_rlocks filter List.length guarded
       Nat.eqb Bool.eqb negb andb].

Ltac split_world :=
  match goal with
  | |- context [url_Parse_ok ?u] => destruct (url_Parse_ok u) eqn:?
  | |- context [c ?i ?t ?r] => destruct (c i t r) as [[?|] [?|]]
  | |- context [StatusCode ?r =? 200] => destruct (StatusCode r =? 200) eqn:?
  | |- context [Decode ?d ?b ?v] => destruct (Decode d b v) as [? [?|]] eqn:?
  | |- context [err ?i] => is_var i; destruct (err i)
  end.

Ltac split_on :=
  match goal with
  | |- context [Marshal_orderRequest ?r] =>
    let E := fresh "E" in
    destruct (Marshal_orderRequest r) as [? ?] eqn:E;
    apply (f_equal snd) in E; rewrite Marshal_orderRequest_nil in E;
    cbn [snd] in E; subst
  | _ => split_world
  end.

Ltac crunch := repeat (exec; try split_on).

(** What is left after [crunch]: equations between lists of round trips,
    and the test of the status. *)
Ltac settle :=
  intros;
  repeat match goal with
  | H : (_ =? _) = true |- _ => apply Z.eqb_eq in H
  | H : (_ =? _) = false |- _ => apply Z.eqb_neq in H
  end;
  repeat match goal with |- _ /\ _ => split end;
  try congruence.

Ltac same_response res :=
  match goal with
  | H : [(_, (Some ?r, _))] = [(_, (Some res, _))] |- _ =>
    assert (r = res) by congruence; subst r
  end.

(** C1. The accumulator is sticky and the first error wins: after a call of
    any endpoint the accumulator holds the error it held before if it held
    one, and otherwise the first of the errors the call handed to it (none
    if there was none). *)
Theorem C1_sticky_first_error_wins :
  forall (op : Endpoint) (i : Instance) (hist : list event),
    err_after (call op i hist) =
    match err i with
    | Some e => Some e
    | None => hd_error (reported (events (call op i hist)))
    end.
Proof.
  intros op i hist. destruct op; crunch; reflexivity.
Qed.

Lemma non200_records (op : Endpoint) (i : Instance) (hist : list event)
    (req : Request) (res : Response) :
  round_trips (events (call op i hist)) = [(req, (Some res, None))] ->
  StatusCode res <> 200 ->
  err i = None ->
  err_after (call op i hist) = apiError (venue_message res) (Status res).
Proof.
  unfold venue_message. revert req res.
  destruct op; intros req res; crunch; settle; same_response res;
    repeat match goal with
    | H : Decode _ _ _ = _ |- _ => rewrite H; clear H
    end; reflexivity.
Qed.

Lemma requests_of_call (op : Endpoint) (i : Instance) (hist : list event) :
  built (events (call op i hist)) = [listed_target op i] /\
  sent (events (call op i hist)) =
    if url_Parse_ok (snd (listed_target op i)) then [listed_target op i] else [].
Proof.
  destruct op; crunch; split; reflexivity.
Qed.

Lemma transport_error_recorded (op : Endpoint) (i : Instance) (hist : list event)
    (req : Request) (res : option Response) (e : goerror) :
  round_trips (events (call op i hist)) = [(req, (res, Some e))] ->
  err_after (call op i hist) =
    match err i with
    | Some e0 => Some e0
    | None => Some e
    end.
Proof.
  revert req res e. destruct op; intros req res e; crunch; settle.
Qed.

(** C5. Every call builds exactly one request, with the method and the URL
    the specification lists for its endpoint (the order id in decimal);
    the request it sends, when the URL parses, is that one; and the text
    [Itoa] writes reads back as the number it was given. *)
Theorem C5_request_method_and_url :
  forall (op : Endpoint) (i : Instance) (hist : list event),
    built (events (call op i hist)) = [listed_target op i] /\
    sent (events (call op i hist)) =
      (if url_Parse_ok (snd (listed_target op i)) then [listed_target op i] else []) /\
    (forall n : Z, Strconv.Atoi (Strconv.Itoa n) = Some n).
Proof.
  intros op i hist.
  destruct (requests_of_call op i hist) as [Hb Hs].
  repeat split; auto using Strconv.Itoa_Atoi.
Qed.

(** C10. Within a call the read lock is taken once; account, venue and
    symbol are read while it is held and only then; the header and the
    client are read, and the request is sent, with no lock held; and the
    call leaves the lock as it found it. *)
Theorem C10_lock_released_before_round_trip :
  forall (op : Endpoint) (i : Instance) (hist : list event),
    lock_discipline 0 (events (call op i hist)) = true /\
    count_rlocks (events (call op i hist)) = 1%nat /\
    rlocks (inst (final (call op i hist))) = rlocks i.
Proof.
  intros op i hist. destruct op; crunch; repeat split; reflexivity.
Qed.
(** What [NewOrder], [CancelOrder] and [OrderStatus] do with a decode
    error on a 200 response: it is recorded. *)
Lemma order_endpoints_record_decode_error (op : Endpoint) (i : Instance)
    (hist : list event) (req : Request) (res : Response) (e : goerror) :
  list_endpoint op = false ->
  round_trips (events (call op i hist)) = [(req, (Some res, None))] ->
  StatusCode res = 200 ->
  snd (Decode decode_Order (Body res) zeroOrder) = Some e ->
  err i = None ->
  err_after (call op i hist) = Some e.
Proof.
  revert req res e.
  destruct op; intros req res e; try discriminate; crunch; settle;
    same_response res;
    match goal with
    | H : Decode _ _ _ = _, H' : snd (Decode _ _ _) = _ |- _ =>
      rewrite H in H'; cbn [snd] in H'; congruence
    end.
Qed.

(** C3. A decode error on a 200 response of [AccountOrderStatus] or
    [StockOrderStatus] is not recorded: both return before they hand it to
    the accumulator, which stays empty, where [NewOrder], [CancelOrder] and
    [OrderStatus] record it (the lemma above). *)
Theorem C3_list_endpoints_drop_decode_error :
  forall (op : Endpoint) (i : Instance) (hist : list event)
         (req : Request) (res : Response) (e : goerror),
    list_endpoint op = true ->
    round_trips (events (call op i hist)) = [(req, (Some res, None))] ->
    StatusCode res = 200 ->
    snd (Decode decode_allOrdersStatusResult (Body res) zeroAllOrdersStatusResult) = Some e ->
    err i = None ->
    err_after (call op i hist) = None /\
    reported (events (call op i hist)) = [].
Proof.
  intros op i hist req res e. revert req res e.
  destruct op; intros req res e; try discriminate; crunch; settle.
Qed.

(** C8. The body of the request [NewOrder] sends is the object of the
    order request, with the direction and the order type as the encoder
    writes the strings they are given as; the exported constants are the
    strings of the specification's enumeration, and the encoder writes
    them as they are. *)
Theorem C8_constants_in_request_body :
  forall (price quantity : Z) (direction : orderDirection) (orderType_ : orderType)
         (i : Instance) (hist : list event) (req : Request) (res : DoResult),
    round_trips (events (call (CallNewOrder price quantity direction orderType_) i hist))
      = [(req, res)] ->
    ReqBody req =
      Some (JObj [ ("account", JStr (toValidUTF8 (account i)));
                   ("venue", JStr (toValidUTF8 (venue i)));
                   ("symbol", JStr (toValidUTF8 (symbol i)));
                   ("price", JInt price);
                   ("qty", JInt quantity);
                   ("direction", JStr (toValidUTF8 direction));
                   ("orderType", JStr (toValidUTF8 orderType_)) ]) /\
    (Limit = "limit" /\ Market = "market" /\ FillOrKill = "fill-or-kill" /\
     ImmediateOrCancel = "immediate-or-cancel" /\ Buy = "buy" /\ Sell = "sell") /\
    map toValidUTF8 [Limit; Market; FillOrKill; ImmediateOrCancel; Buy; Sell] =
      ["limit"; "market"; "fill-or-kill"; "immediate-or-cancel"; "buy"; "sell"].
Proof.
  intros price quantity direction orderType_ i hist req res.
  assert (Hconst :
    (Limit = "limit" /\ Market = "market" /\ FillOrKill = "fill-or-kill" /\
     ImmediateOrCancel = "immediate-or-cancel" /\ Buy = "buy" /\ Sell = "sell") /\
    map toValidUTF8 [Limit; Market; FillOrKill; ImmediateOrCancel; Buy; Sell] =
      ["limit"; "market"; "fill-or-kill"; "immediate-or-cancel"; "buy"; "sell"])
    by (repeat split; reflexivity).
  exec.
  match goal with
  | |- context [Marshal_orderRequest ?r] =>
    change (Marshal_orderRequest r) with (fst (Marshal_orderRequest r), @None goerror)
  end.
  repeat (exec; try split_world); intros Hrt; try discriminate Hrt;
    injection Hrt as <- _; (split; [reflexivity | exact Hconst]).
Qed.

(** *** The field [OriginalQuantity] *)

Lemma equalFold_refl (a : string) : equalFold a a = true.
Proof. unfold equalFold. apply String.eqb_refl. Qed.

(** A key selects [OriginalQuantity] only if it equals the field's tag
    under folding. *)
Lemma find_OriginalQuantity (key : string) :
  find_field Order_fields Order_tag key = Some FOriginalQuantity ->
  equalFold "orignialQty" key = true.
Proof.
  unfold find_field.
  destruct (find (fun f => String.eqb (Order_tag f) key) Order_fields) as [f|] eqn:Hexact.
  - intros [= ->]. apply find_some in Hexact. destruct Hexact as [_ Heq].
    apply String.eqb_eq in Heq. rewrite <- Heq. apply equalFold_refl.
  - intros Hfold. apply find_some in Hfold. destruct Hfold as [_ Heq]. exact Heq.
Qed.

(** Storing into another field leaves [OriginalQuantity] alone. *)
Lemma store_Order_other (f : OrderField) (j : jvalue) (v : Order)
    (saved : option goerror) :
  f <> FOriginalQuantity ->
  OriginalQuantity (dec_val (store_Order f j v saved)) = OriginalQuantity v.
Proof.
  intros Hf. destruct v. destruct f; try contradiction; reflexivity.
Qed.

Lemma members_keep_OriginalQuantity (kv : list (string * jvalue)) :
  forall (v : Order) (saved : option goerror),
    existsb (fun m => equalFold "orignialQty" (fst m)) kv = false ->
    OriginalQuantity
      (dec_val (decode_members (find_field Order_fields Order_tag) store_Order kv v saved))
    = OriginalQuantity v.
Proof.
  induction kv as [|[k x] rest IH]; intros v saved Hkeys; cbn [decode_members].
  - reflexivity.
  - cbn [existsb fst] in Hkeys. apply orb_false_iff in Hkeys. destruct Hkeys as [Hk Hrest].
    destruct (find_field Order_fields Order_tag k) as [f|] eqn:Hfind.
    + assert (Hf : f <> FOriginalQuantity).
      { intros ->. apply find_OriginalQuantity in Hfind. congruence. }
      destruct (dec_abort (store_Order f x v saved)).
      * now apply store_Order_other.
      * rewrite IH by exact Hrest. now apply store_Order_other.
    + now apply IH.
Qed.

Lemma decode_Order_keeps (j : jvalue) (v : Order) (saved : option goerror) :
  has_key "orignialQty" j = false ->
  OriginalQuantity (dec_val (decode_Order j v saved)) = OriginalQuantity v.
Proof.
  intros Hkey. unfold decode_Order, decode_struct.
  destruct j; try reflexivity.
  now apply members_keep_OriginalQuantity.
Qed.

Lemma decode_elems_keep (l : list jvalue) :
  forall (old acc : list Order) (saved : option goerror),
    forallb (fun x => negb (has_key "orignialQty" x)) l = true ->
    Forall (fun o => OriginalQuantity o = 0) old ->
    Forall (fun o => OriginalQuantity o = 0) acc ->
    Forall (fun o => OriginalQuantity o = 0)
      (dec_val (decode_elems zeroOrder decode_Order l old acc saved)).
Proof.
  induction l as [|x rest IH]; intros old acc saved Hl Hold Hacc; cbn [decode_elems].
  - exact Hacc.
  - cbn [forallb] in Hl. apply andb_true_iff in Hl. destruct Hl as [Hx Hrest].
    apply negb_true_iff in Hx.
    assert (Hhd : OriginalQuantity (hd zeroOrder old) = 0)
      by (destruct Hold; [reflexivity | assumption]).
    assert (Htl : Forall (fun o => OriginalQuantity o = 0) (tl old))
      by (destruct Hold; [constructor | assumption]).
    assert (Hnew : OriginalQuantity (dec_val (decode_Order x (hd zeroOrder old) saved)) = 0)
      by (now rewrite decode_Order_keeps).
    destruct (dec_abort (decode_Order x (hd zeroOrder old) saved)); cbn [dec_val].
    + apply Forall_app. split; [exact Hacc | now constructor].
    + apply IH; [exact Hrest | exact Htl |].
      apply Forall_app. split; [exact Hacc | now repeat constructor].
Qed.

Lemma store_allOrders_keeps (f : AllOrdersField) (x : jvalue)
    (v : allOrdersStatusResult) (saved : option goerror) :
  elements_lack_key "orignialQty" x = true ->
  all_zero (Orders v) ->
  all_zero (Orders (dec_val (store_allOrders f x v saved))).
Proof.
  intros Hx Hv. destruct v as [k ve os]. cbn [Orders] in Hv.
  destruct f; cbn [store_allOrders dec_val Orders]; try exact Hv.
  unfold decode_slice. destruct x; cbn [dec_val mismatch all_zero]; auto.
  apply decode_elems_keep; [exact Hx | | constructor].
  destruct os; [exact Hv | constructor].
Qed.

Lemma allOrders_members_keep (kv : list (string * jvalue)) :
  forall (v : allOrdersStatusResult) (saved : option goerror),
    forallb (fun m => elements_lack_key "orignialQty" (snd m)) kv = true ->
    all_zero (Orders v) ->
    all_zero (Orders (dec_val
      (decode_members (find_field allOrders_fields allOrders_tag) store_allOrders kv v saved))).
Proof.
  induction kv as [|[k x] rest IH]; intros v saved Hkv Hv; cbn [decode_members].
  - exact Hv.
  - cbn [forallb snd] in Hkv. apply andb_true_iff in Hkv. destruct Hkv as [Hx Hrest].
    destruct (find_field allOrders_fields allOrders_tag k) as [f|].
    + pose proof (store_allOrders_keeps f x v saved Hx Hv) as Hstep.
      destruct (dec_abort (store_allOrders f x v saved)).
      * exact Hstep.
      * now apply IH.
    + now apply IH.
Qed.

(** C7. The tag of [OriginalQuantity] is the misspelled [orignialQty], and
    the key [originalQty] does not match it.  A body none of whose keys
    equals [orignialQty] under the decoder's case-insensitive matching
    leaves [OriginalQuantity] at zero, in a decoded order and in every
    order of a decoded list. *)
Theorem C7_OriginalQuantity_only_under_its_tag :
  forall (b : body),
    (body_has_key "orignialQty" b = false ->
     OriginalQuantity (fst (Decode decode_Order b zeroOrder)) = 0) /\
    (lists_lack_key "orignialQty" b = true ->
     all_zero (Orders (fst (Decode decode_allOrdersStatusResult b zeroAllOrdersStatusResult)))) /\
    equalFold "orignialQty" "originalQty" = false /\
    Order_tag FOriginalQuantity = "orignialQty".
Proof.
  intros b. repeat match goal with |- _ /\ _ => split end; try reflexivity.
  - intros Hkey. destruct b as [e|j]; cbn [Decode fst]; [reflexivity|].
    now rewrite decode_Order_keeps.
  - intros Hl. destruct b as [e|j]; cbn [Decode fst]; [exact I|].
    unfold decode_allOrdersStatusResult, decode_struct.
    destruct j; cbn [dec_val mismatch]; try exact I.
    apply allOrders_members_keep; [exact Hl | exact I].
Qed.


(** C9. No endpoint retries: a call builds one request and sends it once
    when its URL parses, and not at all when it does not; an error of the
    round trip and an error the venue reports both end in the one field
    [err], as values of the one type of errors. *)
Theorem C9_no_retry_one_error_field :
  forall (op : Endpoint) (i : Instance) (hist : list event),
    (exists m u : string,
       built (events (call op i hist)) = [(m, u)] /\
       List.length (round_trips (events (call op i hist))) =
         if url_Parse_ok u then 1%nat else 0%nat) /\
    (forall (req : Request) (res : option Response) (e : goerror),
       round_trips (events (call op i hist)) = [(req, (res, Some e))] ->
       err i = None ->
       err_after (call op i hist) = Some e) /\
    (forall (req : Request) (res : Response),
       round_trips (events (call op i hist)) = [(req, (Some res, None))] ->
       StatusCode res <> 200 ->
       err i = None ->
       err_after (call op i hist) = apiError (venue_message res) (Status res)).
Proof.
  intros op i hist. split; [|split].
  - destruct (requests_of_call op i hist) as [Hb Hs].
    exists (fst (listed_target op i)), (snd (listed_target op i)).
    rewrite <- surjective_pairing. split; [exact Hb|].
    rewrite <- (length_map (fun rt => (Method (fst rt), URL (fst rt)))).
    fold (sent (events (call op i hist))). rewrite Hs.
    now destruct (url_Parse_ok _).
  - intros req res e Hrt Hempty.
    rewrite (transport_error_recorded op i hist req res e Hrt), Hempty. reflexivity.
  - intros req res Hrt Hcode Hempty. now apply non200_records with (req := req).
Qed.

(** ** Further properties *)

(** Symbolic execution with the call taken out of the statement first, so
    that it is run once however often the statement names it. *)
Ltac run_call :=
  match goal with
  | |- context [call ?op ?i ?hist] =>
    let o := fresh "o" in
    let E := fresh "E" in
    remember (call op i hist) as o eqn:E; revert o E
  end;
  crunch; intros ? ->; exec.

(** Rewriting with what the status and the decoder were found to be. *)
Ltac use_found :=
  repeat match goal with
  | H : (StatusCode _ =? 200) = _ |- _ => rewrite H; clear H
  | H : Decode _ _ _ = _ |- _ => rewrite H; clear H
  end;
  cbn [fst snd Orders first_error].

(** *** What every call does, and what an answered call does *)

Lemma call_facts (op : Endpoint) (i : Instance) (hist : list event) :
  (c (inst (final (call op i hist))) = c i /\
   h (inst (final (call op i hist))) = h i /\
   account (inst (final (call op i hist))) = account i /\
   venue (inst (final (call op i hist))) = venue i /\
   symbol (inst (final (call op i hist))) = symbol i /\
   past (final (call op i hist)) = hist) /\
  err_after (call op i hist) =
    match err i with
    | Some e => Some e
    | None => hd_error (reported (events (call op i hist)))
    end /\
  (List.length (round_trips (events (call op i hist))) <= 1)%nat /\
  lock_discipline 0 (events (call op i hist)) = true /\
  panicked (call op i hist) =
    match round_trips (events (call op i hist)) with
    | [(_, (Some _, _))] => false
    | _ => true
    end.
Proof.
  destruct op; run_call; cbn [List.length]; repeat split; solve [reflexivity | lia].
Qed.

Lemma answered_facts (op : Endpoint) (i : Instance) (hist : list event)
    (req : Request) (res : Response) (herr : option goerror) :
  round_trips (events (call op i hist)) = [(req, (Some res, herr))] ->
  returned (call op i hist) =
    Some (if StatusCode res =? 200 then success_value op (Body res) else zero_result op) /\
  err_after (call op i hist) =
    first_error
      [ err i; herr;
        if StatusCode res =? 200 then success_error op (Body res)
        else apiError (venue_message res) (Status res) ].
Proof.
  revert req res herr. unfold success_value, success_error, venue_message.
  destruct op; cbn [list_endpoint]; run_call; intros req res herr Hrt;
    try discriminate Hrt; injection Hrt as ? ? ?; subst;
    use_found; split; reflexivity.
Qed.

(** *** The round trip of a call

    When the URL of an endpoint parses, the call sends one request, the
    one the endpoint builds, under the header of the instance, and what
    comes back is what the client answers it with after the events the
    call has left by then. *)
Lemma sent_request (op : Endpoint) (i : Instance) (hist : list event) :
  url_Parse_ok (snd (listed_target op i)) = true ->
  exists (req : Request) (t : list event),
    round_trips (events (call op i hist)) = [(req, c i (hist ++ t)%list req)] /\
    Header req = h i /\
    (Method req, URL req) = listed_target op i /\
    (ReqBody req = None <->
     match op with CallNewOrder _ _ _ _ => False | _ => True end).
Proof.
  intros Hurl.
  destruct op; cbn [listed_target snd] in Hurl;
    match goal with
    | |- context [call ?op ?i ?hist] =>
      let o := fresh "o" in
      let E := fresh "E" in
      remember (call op i hist) as o eqn:E; revert o E
    end;
    repeat (exec;
            try first
              [ rewrite Hurl
              | match goal with
                | |- context [c ?i ?t ?r] =>
                  let Hc := fresh "Hclient" in
                  destruct (c i t r) as [[?|] [?|]] eqn:Hc
                end
              | split_on ]);
    intros ? ->; exec;
    match goal with
    | H : c i (hist ++ ?t)%list ?r = _ |- _ => exists r, t; rewrite H
    end;
    cbn [Header Method URL ReqBody];
    repeat split; intros; try exact I; try discriminate; try contradiction.
Qed.

(** With a client that gives every request the same answer, the round
    trip of the call brings that answer. *)
Lemma answered_trace (op : Endpoint) (i : Instance) (hist : list event)
    (ans : DoResult) :
  (forall (t : list event) (r : Request), c i t r = ans) ->
  url_Parse_ok (snd (listed_target op i)) = true ->
  exists req : Request, round_trips (events (call op i hist)) = [(req, ans)].
Proof.
  intros Hc Hurl.
  destruct (sent_request op i hist Hurl) as (req & t & Hrt & _).
  exists req. now rewrite Hrt, Hc.
Qed.

Lemma failed_trip_facts (op : Endpoint) (i : Instance) (hist : list event)
    (req : Request) (e : goerror) :
  round_trips (events (call op i hist)) = [(req, (None, Some e))] ->
  panicked (call op i hist) = true /\
  returned (call op i hist) = None /\
  reported (events (call op i hist)) = [e].
Proof.
  revert req e. destruct op; run_call; intros rq er Hrt; try discriminate Hrt;
    injection Hrt as ? ?; subst; repeat split; reflexivity.
Qed.

(** C2. When the client answers with a status that is not 200 and no
    earlier error occupies the accumulator (it was empty before the call
    and the round trip returned no error), every endpoint whose URL parses
    leaves in it the venue's error: the message of the decoded error body
    together with the status. *)
Theorem C2_non200_records_venue_error :
  forall (op : Endpoint) (i : Instance) (hist : list event) (res : Response),
    (forall (t : list event) (r : Request), c i t r = (Some res, None)) ->
    url_Parse_ok (snd (listed_target op i)) = true ->
    StatusCode res <> 200 ->
    err i = None ->
    err_after (call op i hist) = apiError (venue_message res) (Status res).
Proof.
  intros op i hist res Hc Hurl Hcode Hempty.
  destruct (answered_trace op i hist _ Hc Hurl) as [req Hrt].
  now apply non200_records with (req := req).
Qed.

(** C4. When the client answers with a status that is not 200, every
    endpoint whose URL parses returns the zero value of its result type,
    whatever the error body holds and whether or not the round trip
    returned an error as well: the zero [Order] for [NewOrder],
    [CancelOrder] and [OrderStatus], the nil slice for
    [AccountOrderStatus] and [StockOrderStatus]. *)
Theorem C4_non200_returns_zero_value :
  forall (op : Endpoint) (i : Instance) (hist : list event)
         (res : Response) (herr : option goerror),
    (forall (t : list event) (r : Request), c i t r = (Some res, herr)) ->
    url_Parse_ok (snd (listed_target op i)) = true ->
    StatusCode res <> 200 ->
    returned (call op i hist) = Some (zero_result op).
Proof.
  intros op i hist res herr Hc Hurl Hcode.
  destruct (answered_trace op i hist _ Hc Hurl) as [req Hrt].
  rewrite (proj1 (answered_facts op i hist req res herr Hrt)).
  apply Z.eqb_neq in Hcode. now rewrite Hcode.
Qed.

(** C6. When the round trip fails (the client returns a nil response and
    an error), every endpoint whose URL parses hands the error to the
    accumulator, which stores it unless it holds one already, and then
    panics on the nil response and returns nothing. *)
Theorem C6_transport_failure_panics :
  forall (op : Endpoint) (i : Instance) (hist : list event) (e : goerror),
    (forall (t : list event) (r : Request), c i t r = (None, Some e)) ->
    url_Parse_ok (snd (listed_target op i)) = true ->
    panicked (call op i hist) = true /\
    returned (call op i hist) = None /\
    reported (events (call op i hist)) = [e] /\
    err_after (call op i hist) =
      match err i with
      | Some e0 => Some e0
      | None => Some e
      end.
Proof.
  intros op i hist e Hc Hurl.
  destruct (answered_trace op i hist _ Hc Hurl) as [req Hrt].
  destruct (failed_trip_facts op i hist req e Hrt) as (Hp & Hr & Hrep).
  repeat split; try assumption.
  now apply transport_error_recorded with (req := req) (res := None).
Qed.

(** X1. When the client answers with status 200, every endpoint whose URL
    parses returns what the decoder left in the result, with or without a
    decode error and whether or not the round trip returned an error as
    well. *)
Theorem X1_success_returns_decoded_value :
  forall (op : Endpoint) (i : Instance) (hist : list event)
         (res : Response) (herr : option goerror),
    (forall (t : list event) (r : Request), c i t r = (Some res, herr)) ->
    url_Parse_ok (snd (listed_target op i)) = true ->
    StatusCode res = 200 ->
    returned (call op i hist) = Some (success_value op (Body res)).
Proof.
  intros op i hist res herr Hc Hurl Hcode.
  destruct (answered_trace op i hist _ Hc Hurl) as [req Hrt].
  rewrite (proj1 (answered_facts op i hist req res herr Hrt)).
  apply Z.eqb_eq in Hcode. now rewrite Hcode.
Qed.

(** X2. When the client answers with a response, every endpoint whose URL
    parses leaves in the accumulator the first of: the error it held
    before, the error of the round trip, and then, on status 200, the
    decode error (for the three order endpoints only) or, on another
    status, the venue's error.  The decode error of an error body is never
    stored. *)
Theorem X2_accumulator_after_answer :
  forall (op : Endpoint) (i : Instance) (hist : list event)
         (res : Response) (herr : option goerror),
    (forall (t : list event) (r : Request), c i t r = (Some res, herr)) ->
    url_Parse_ok (snd (listed_target op i)) = true ->
    err_after (call op i hist) =
      first_error
        [ err i; herr;
          if StatusCode res =? 200 then success_error op (Body res)
          else apiError (venue_message res) (Status res) ].
Proof.
  intros op i hist res herr Hc Hurl.
  destruct (answered_trace op i hist _ Hc Hurl) as [req Hrt].
  exact (proj2 (answered_facts op i hist req res herr Hrt)).
Qed.

(** X3. Every endpoint whose URL parses sends exactly one request: it has
    the method and the URL of the endpoint and the header of the instance,
    and it has a body for [NewOrder] only. *)
Theorem X3_header_and_body_of_request :
  forall (op : Endpoint) (i : Instance) (hist : list event),
    url_Parse_ok (snd (listed_target op i)) = true ->
    exists (req : Request) (res : DoResult),
      round_trips (events (call op i hist)) = [(req, res)] /\
      Header req = h i /\
      (Method req, URL req) = listed_target op i /\
      (ReqBody req = None <->
       match op with CallNewOrder _ _ _ _ => False | _ => True end).
Proof.
  intros op i hist Hurl.
  destruct (sent_request op i hist Hurl) as (req & t & Hrt & Hrest).
  exists req, (c i (hist ++ t)%list req). now split.
Qed.

(** X4. A call changes nothing of the configuration: client, header,
    account, venue and symbol are after it what they were before. *)
Theorem X4_configuration_unchanged :
  forall (op : Endpoint) (i : Instance) (hist : list event),
    c (inst (final (call op i hist))) = c i /\
    h (inst (final (call op i hist))) = h i /\
    account (inst (final (call op i hist))) = account i /\
    venue (inst (final (call op i hist))) = venue i /\
    symbol (inst (final (call op i hist))) = symbol i.
Proof.
  intros op i hist.
  destruct (call_facts op i hist) as ((Hc & Hh & Ha & Hv & Hs & _) & _).
  repeat split; assumption.
Qed.

(** X5. A call returns exactly when its round trip brought a response;
    it panics when no request was sent or the response is nil. *)
Theorem X5_panics_iff_no_response :
  forall (op : Endpoint) (i : Instance) (hist : list event),
    panicked (call op i hist) =
      match round_trips (events (call op i hist)) with
      | [(_, (Some _, _))] => false
      | _ => true
      end.
Proof.
  intros op i hist. exact (proj2 (proj2 (proj2 (proj2 (call_facts op i hist))))).
Qed.

(** X6. When the URL of an endpoint does not parse, the call panics on
    the nil request before anything is sent, and the accumulator is left
    as it was: the error of [http.NewRequest] is dropped. *)
Theorem X6_unparsable_url :
  forall (op : Endpoint) (i : Instance) (hist : list event),
    url_Parse_ok (snd (listed_target op i)) = false ->
    panicked (call op i hist) = true /\
    round_trips (events (call op i hist)) = [] /\
    reported (events (call op i hist)) = [] /\
    err_after (call op i hist) = err i.
Proof.
  intros op i hist. destruct op; run_call; settle.
Qed.

(** *** Decoding bodies that are no object, and bodies without the key *)

Lemma Decode_Order_not_object (b : body) :
  is_object b = false ->
  Decode decode_Order b zeroOrder =
    (zeroOrder,
     match b with
     | Malformed e => Some e
     | Json JNull => None
     | Json j => Some (UnmarshalTypeError (kind j) "Order")
     end).
Proof.
  destruct b as [e|j]; [reflexivity|].
  destruct j; cbn [is_object]; intros H; try discriminate H; reflexivity.
Qed.

Lemma Decode_allOrders_not_object (b : body) :
  is_object b = false ->
  Orders (fst (Decode decode_allOrdersStatusResult b zeroAllOrdersStatusResult)) = None.
Proof.
  destruct b as [e|j]; [reflexivity|].
  destruct j; cbn [is_object]; intros H; try discriminate H; reflexivity.
Qed.

Lemma Decode_Order_without_key (b : body) :
  body_has_key "orignialQty" b = false ->
  OriginalQuantity (fst (Decode decode_Order b zeroOrder)) = 0.
Proof.
  intros Hkey. destruct b as [e|j]; cbn [Decode fst]; [reflexivity|].
  now rewrite decode_Order_keeps.
Qed.

Lemma Decode_allOrders_without_key (b : body) :
  lists_lack_key "orignialQty" b = true ->
  all_zero (Orders (fst (Decode decode_allOrdersStatusResult b zeroAllOrdersStatusResult))).
Proof.
  intros Hl. destruct b as [e|j]; cbn [Decode fst]; [exact I|].
  unfold decode_allOrdersStatusResult, decode_struct.
  destruct j; cbn [dec_val mismatch]; try exact I.
  apply allOrders_members_keep; [exact Hl | exact I].
Qed.

(** *** The URL of an order *)

Lemma append_cancel (p a b : string) : p ++ a = p ++ b -> a = b.
Proof.
  induction p as [|x p IH]; cbn [append]; intros H; [exact H|].
  injection H as H. now apply IH.
Qed.

Lemma Itoa_injective (n m : Z) : Strconv.Itoa n = Strconv.Itoa m -> n = m.
Proof.
  intros H. apply (f_equal Strconv.Atoi) in H.
  rewrite !Strconv.Itoa_Atoi in H. now injection H.
Qed.

(** X7. The URL that [CancelOrder] and [OrderStatus] build tells the order
    id: on one instance two ids that differ are never given the same URL. *)
Theorem X7_order_id_decides_url :
  forall (n m : Z) (i : Instance) (hist hist' : list event),
    (built (events (call (CallCancelOrder n) i hist)) =
     built (events (call (CallCancelOrder m) i hist')) -> n = m) /\
    (built (events (call (CallOrderStatus n) i hist)) =
     built (events (call (CallOrderStatus m) i hist')) -> n = m).
Proof.
  intros n m i hist hist'.
  split; intros H;
    rewrite (proj1 (requests_of_call _ i hist)), (proj1 (requests_of_call _ i hist')) in H;
    apply (f_equal (fun l => snd (hd ("", "") l))) in H;
    cbv beta iota delta [listed_target hd snd] in H;
    repeat apply append_cancel in H; now apply Itoa_injective.
Qed.

(** X8. The JSON of an order request, read back into an [Order], gives
    without an error the account, venue, symbol, direction and order type
    of the request as the encoder writes them (bytes that are no UTF-8
    replaced by U+FFFD) and its price and quantity, the price and the
    quantity being within the range of [int]; the other fields stay
    zero. *)
Theorem X8_order_request_reads_back :
  forall (r : orderRequest),
    fits_int (rq_Price r) = true ->
    fits_int (rq_Quantity r) = true ->
    Decode decode_Order (Json (fst (Marshal_orderRequest r))) zeroOrder =
      ({| Account := toValidUTF8 (rq_Account r);
          Venue := toValidUTF8 (rq_Venue r);
          Symbol := toValidUTF8 (rq_Symbol r);
          Price := rq_Price r; OriginalQuantity := 0; Quantity := rq_Quantity r;
          Direction := toValidUTF8 (rq_Direction r);
          OrderType := toValidUTF8 (rq_OrderType r);
          ID := 0; TS := zeroTime; Fills := None; TotalFilled := 0; Open := false |},
       None).
Proof.
  intros [a ve sy p q d t] Hp Hq. cbn [rq_Price rq_Quantity] in Hp, Hq.
  cbv -[fits_int toValidUTF8]. rewrite Hp, Hq. reflexivity.
Qed.

(** X9. After a response whose body has no member keyed [orignialQty]
    (in any case of letters), on the body or on the elements of its
    arrays, every order an endpoint returns has [OriginalQuantity] zero:
    so it is for every answer keyed [originalQty]. *)
Theorem X9_returned_orders_have_no_original_quantity :
  forall (op : Endpoint) (i : Instance) (hist : list event)
         (req : Request) (res : Response) (herr : option goerror) (r : Result),
    round_trips (events (call op i hist)) = [(req, (Some res, herr))] ->
    body_has_key "orignialQty" (Body res) = false ->
    lists_lack_key "orignialQty" (Body res) = true ->
    returned (call op i hist) = Some r ->
    Forall (fun o => OriginalQuantity o = 0) (orders_of r).
Proof.
  intros op i hist req res herr r Hrt Hkey Hlists Hret.
  destruct (StatusCode res =? 200) eqn:Hcode.
  - rewrite (proj1 (answered_facts op i hist req res herr Hrt)), Hcode in Hret.
    injection Hret as <-. unfold success_value.
    destruct (list_endpoint op); cbn [orders_of].
    + pose proof (Decode_allOrders_without_key (Body res) Hlists) as Hz.
      destruct (Orders _); [exact Hz | constructor].
    + constructor; [now apply Decode_Order_without_key | constructor].
  - rewrite (proj1 (answered_facts op i hist req res herr Hrt)), Hcode in Hret.
    injection Hret as <-.
    destruct op; cbn [zero_result orders_of]; repeat constructor.
Qed.

(** X10. When the client answers with status 200 and a body that is no
    JSON object, every endpoint whose URL parses returns the zero value of
    its result type.  With an empty accumulator and no error of the round
    trip, an order endpoint then records the decoder's error, except for
    the body [null], which leaves no error at all; a list endpoint records
    nothing. *)
Theorem X10_body_that_is_no_object :
  forall (op : Endpoint) (i : Instance) (hist : list event) (res : Response),
    (forall (t : list event) (r : Request), c i t r = (Some res, None)) ->
    url_Parse_ok (snd (listed_target op i)) = true ->
    StatusCode res = 200 ->
    is_object (Body res) = false ->
    err i = None ->
    returned (call op i hist) = Some (zero_result op) /\
    err_after (call op i hist) =
      if list_endpoint op then None
      else match Body res with
           | Malformed e => Some e
           | Json JNull => None
           | Json j => Some (UnmarshalTypeError (kind j) "Order")
           end.
Proof.
  intros op i hist res Hc Hurl Hcode Hobj Hempty.
  destruct (answered_trace op i hist _ Hc Hurl) as [req Hrt].
  destruct (answered_facts op i hist req res None Hrt) as [Hval Herr].
  rewrite Hval, Herr, Hempty.
  apply Z.eqb_eq in Hcode. rewrite Hcode. cbn [first_error].
  unfold success_value, success_error.
  destruct op; cbn [list_endpoint zero_result];
    rewrite ?Decode_Order_not_object, ?Decode_allOrders_not_object by exact Hobj;
    cbn [fst snd]; split; try reflexivity;
    destruct (Body res) as [e|[]]; reflexivity.
Qed.

(** *** Framing *)

Lemma reframe_reframe {A : Type} (p q n n' : list event) (o : Outcome A) :
  reframe p n (reframe q n' o) = reframe p (n ++ n')%list o.
Proof. destruct o; cbn [reframe inst now]; now rewrite app_assoc. Qed.

Lemma framed_ret {A : Type} (a : A) : framed (ret a).
Proof. intros i p n. cbn. now rewrite app_nil_r. Qed.

Lemma framed_panic {A : Type} : framed (@panic A).
Proof. intros i p n. cbn. now rewrite app_nil_r. Qed.

Lemma framed_bind {A B : Type} (m : M A) (k : A -> M B) :
  framed m -> (forall a, framed (k a)) -> framed (bind m k).
Proof.
  intros Hm Hk i p n. unfold bind.
  rewrite (Hm i p n).
  pose proof (Hm i (p ++ n)%list []) as Hpast. rewrite app_nil_r in Hpast.
  destruct (m {| inst := i; past := (p ++ n)%list; now := [] |}) as [a s|s];
    cbn [reframe] in *; [|reflexivity].
  destruct s as [i1 p1 n1]. cbn [inst now app] in *.
  injection Hpast as ->.
  rewrite (Hk a i1 p (n ++ n1)%list), (Hk a i1 (p ++ n)%list n1).
  now rewrite reframe_reframe, app_assoc.
Qed.

Lemma framed_RLock : framed RLock.
Proof. intros i p n. reflexivity. Qed.

Lemma framed_RUnlock : framed RUnlock.
Proof.
  intros i p n. unfold RUnlock. cbn [inst].
  destruct (rlocks i); cbn; [now rewrite app_nil_r | reflexivity].
Qed.

Lemma framed_load {A : Type} (f : field) (get : Instance -> A) : framed (load f get).
Proof. intros i p n. reflexivity. Qed.

Lemma framed_setErr (e : option goerror) : framed (setErr e).
Proof. intros i p n. unfold setErr. cbn [inst]. destruct e, (err i); reflexivity. Qed.

Lemma framed_Err : framed Err.
Proof. intros i p n. cbn. now rewrite app_nil_r. Qed.

Lemma framed_NewRequest (m u : string) (b : option jvalue) : framed (NewRequest m u b).
Proof. intros i p n. reflexivity. Qed.

Lemma framed_deref {A : Type} (x : option A) : framed (deref x).
Proof. destruct x; [apply framed_ret | apply framed_panic]. Qed.

Lemma framed_set_Header (req : option Request) : framed (set_Header req).
Proof.
  unfold set_Header. apply framed_bind; [apply framed_load|].
  intros hdr. destruct req; [apply framed_ret | apply framed_panic].
Qed.

Lemma framed_Do (req : Request) : framed (Do req).
Proof.
  intros i p n. unfold Do, bind, get_c, load, log. cbn [inst past now reframe app].
  now rewrite <- !app_assoc.
Qed.

Ltac framing :=
  repeat first
    [ apply framed_ret | apply framed_panic | apply framed_RLock
    | apply framed_RUnlock | apply framed_load | apply framed_setErr
    | apply framed_Err | apply framed_NewRequest | apply framed_deref
    | apply framed_set_Header | apply framed_Do
    | apply framed_bind; [|intros]
    | match goal with
      | |- framed (match ?x with _ => _ end) => destruct x
      end ].

Lemma framed_NewOrder (p q : Z) (d : orderDirection) (t : orderType) :
  framed (NewOrder p q d t).
Proof. unfold NewOrder, get_account, get_venue, get_symbol. cbv zeta. framing. Qed.

Lemma framed_CancelOrder (n : Z) : framed (CancelOrder n).
Proof. unfold CancelOrder, get_venue, get_symbol. cbv zeta. framing. Qed.

Lemma framed_OrderStatus (n : Z) : framed (OrderStatus n).
Proof. unfold OrderStatus, get_venue, get_symbol. cbv zeta. framing. Qed.

Lemma framed_AccountOrderStatus : framed AccountOrderStatus.
Proof. unfold AccountOrderStatus, get_account, get_venue. cbv zeta. framing. Qed.

Lemma framed_StockOrderStatus : framed StockOrderStatus.
Proof. unfold StockOrderStatus, get_account, get_venue, get_symbol. cbv zeta. framing. Qed.

Lemma framed_run (op : Endpoint) : framed (run op).
Proof.
  destruct op; cbn [run]; apply framed_bind;
    auto using framed_NewOrder, framed_CancelOrder, framed_OrderStatus,
      framed_AccountOrderStatus, framed_StockOrderStatus, framed_ret.
Qed.

Lemma framed_calls (ops : list Endpoint) : framed (calls ops).
Proof.
  induction ops as [|op rest IH]; cbn [calls]; [apply framed_ret|].
  apply framed_bind; [apply framed_run|]. intros r.
  apply framed_bind; [exact IH|]. intros rs. apply framed_ret.
Qed.

(** *** Sessions *)

Lemma reported_app (a b : list event) : reported (a ++ b) = (reported a ++ reported b)%list.
Proof.
  induction a as [|e a IH]; [reflexivity|].
  destruct e as [| | | | |[g|]]; cbn [app reported]; now rewrite IH.
Qed.

Lemma built_app (a b : list event) : built (a ++ b) = (built a ++ built b)%list.
Proof.
  induction a as [|e a IH]; [reflexivity|].
  destruct e; cbn [app built]; now rewrite IH.
Qed.

Lemma round_trips_app (a b : list event) :
  round_trips (a ++ b) = (round_trips a ++ round_trips b)%list.
Proof.
  induction a as [|e a IH]; [reflexivity|].
  destruct e; cbn [app round_trips]; now rewrite IH.
Qed.

Lemma events_reframe {A : Type} (p n : list event) (o : Outcome A) :
  events (reframe p n o) = (n ++ events o)%list.
Proof. now destruct o. Qed.

Lemma err_after_reframe {A : Type} (p n : list event) (o : Outcome A) :
  err_after (reframe p n o) = err_after o.
Proof. now destruct o. Qed.

Lemma panicked_reframe {A : Type} (p n : list event) (o : Outcome A) :
  panicked (reframe p n o) = panicked o.
Proof. now destruct o. Qed.

(** The first call of a session, and the rest of it run on the instance
    and after the events the first call leaves. *)
Lemma session_cons (op : Endpoint) (rest : list Endpoint) (i : Instance)
    (hist : list event) :
  session (op :: rest) i hist =
    match call op i hist with
    | Panic s => Panic s
    | Ret r s =>
      match reframe hist (now s) (session rest (inst s) (hist ++ now s)) with
      | Ret rs s' => Ret (r :: rs) s'
      | Panic s' => Panic s'
      end
    end.
Proof.
  pose proof (call_facts op i hist) as ((_ & _ & _ & _ & _ & Hpast) & _).
  unfold session at 1. cbn [calls]. unfold bind at 1. fold (call op i hist).
  destruct (call op i hist) as [r [i1 p1 n1]|s]; [|reflexivity].
  cbn [final past inst now] in *. subst p1.
  unfold bind. rewrite (framed_calls rest i1 hist n1). unfold session.
  now destruct (calls rest _).
Qed.

Lemma session_first_error (ops : list Endpoint) :
  forall (i : Instance) (hist : list event),
    err_after (session ops i hist) =
      match err i with
      | Some e => Some e
      | None => hd_error (reported (events (session ops i hist)))
      end /\
    (List.length (round_trips (events (session ops i hist))) <= List.length ops)%nat.
Proof.
  induction ops as [|op rest IH]; intros i hist.
  - unfold session. cbn [calls]. unfold ret, err_after, events. cbn.
    split; [now destruct (err i) | lia].
  - rewrite session_cons.
    destruct (call_facts op i hist) as (_ & Hacc & Hone & _ & _).
    destruct (call op i hist) as [r s|s].
    + assert (Hacc' : err (inst s) =
                match err i with
                | Some e => Some e
                | None => hd_error (reported (now s))
                end) by exact Hacc.
      assert (Hone' : (List.length (round_trips (now s)) <= 1)%nat) by exact Hone.
      destruct (IH (inst s) (hist ++ now s)%list) as [IHacc IHlen].
      set (o := session rest (inst s) (hist ++ now s)) in *.
      assert (Herr : err_after (match reframe hist (now s) o with
                                | Ret rs s' => Ret (r :: rs) s'
                                | Panic s' => Panic s'
                                end) = err_after o)
        by (now destruct o).
      assert (Hev : events (match reframe hist (now s) o with
                            | Ret rs s' => Ret (r :: rs) s'
                            | Panic s' => Panic s'
                            end) = (now s ++ events o)%list)
        by (now destruct o).
      rewrite Herr, Hev, IHacc, Hacc'.
      rewrite reported_app, round_trips_app, length_app. cbn [List.length].
      split; [|lia].
      destruct (err i); [reflexivity|].
      now destruct (reported (now s)).
    + split; [exact Hacc | cbn [List.length]; exact (Nat.le_trans _ _ _ Hone (le_n_S _ _ (Nat.le_0_l _)))].
Qed.

(** X11. Over any run of calls the accumulator keeps the first error: the
    one it held before the run, or else the first error any of the calls
    handed to it; and the run sends no more requests than it has calls. *)
Theorem X11_session_keeps_first_error :
  forall (ops : list Endpoint) (i : Instance) (hist : list event),
    err_after (session ops i hist) =
      match err i with
      | Some e => Some e
      | None => hd_error (reported (events (session ops i hist)))
      end /\
    (List.length (round_trips (events (session ops i hist))) <= List.length ops)%nat.
Proof.
  intros ops i hist. apply session_first_error.
Qed.

Lemma lock_discipline_app (a b : list event) :
  forall held : nat,
    lock_discipline held a = true ->
    lock_discipline held (a ++ b) = lock_discipline 0 b.
Proof.
  induction a as [|e a IH]; intros held Ha; cbn [app lock_discipline] in *.
  - apply Nat.eqb_eq in Ha. now subst.
  - destruct e; try (now apply IH).
    + destruct held; [discriminate | now apply IH].
    + apply andb_true_iff in Ha. destruct Ha as [Hf Ha]. rewrite Hf. now apply IH.
    + apply andb_true_iff in Ha. destruct Ha as [Hf Ha]. rewrite Hf. now apply IH.
Qed.

(** X15. Over any run of calls the lock discipline of a single call
    holds: account, venue and symbol are read under the read lock only,
    every request is sent with no read lock held, and no lock is left
    held at the end. *)
Theorem X15_session_lock_discipline :
  forall (ops : list Endpoint) (i : Instance) (hist : list event),
    lock_discipline 0 (events (session ops i hist)) = true.
Proof.
  induction ops as [|op rest IH]; intros i hist; [reflexivity|].
  rewrite session_cons.
  destruct (call_facts op i hist) as (_ & _ & _ & Hlock & _).
  destruct (call op i hist) as [r s|s]; [|exact Hlock].
  specialize (IH (inst s) (hist ++ now s)%list).
  set (o := session rest (inst s) (hist ++ now s)) in *.
  assert (Hev : events (match reframe hist (now s) o with
                        | Ret rs s' => Ret (r :: rs) s'
                        | Panic s' => Panic s'
                        end) = (now s ++ events o)%list)
    by (now destruct o).
  rewrite Hev. rewrite (lock_discipline_app _ _ 0%nat Hlock). exact IH.
Qed.

(** *** Members no field takes *)

Lemma decode_members_selected {T F : Type} (find : string -> option F)
    (store : F -> decoder T) (kv : list (string * jvalue)) :
  forall (v : T) (saved : option goerror),
    decode_members find store kv v saved =
    decode_members find store (filter (selects find) kv) v saved.
Proof.
  induction kv as [|[k x] rest IH]; intros v saved; [reflexivity|].
  cbn [filter selects fst decode_members]. unfold selects at 1. cbn [fst].
  destruct (find k) as [f|] eqn:Hk; cbn [decode_members]; [|apply IH].
  rewrite Hk. destruct (dec_abort (store f x v saved)); [reflexivity | apply IH].
Qed.

(** X14. Decoding an order looks at the members whose key matches a tag
    of [Order] and at no other: the rest of the body can be dropped
    without a change in the order or in the error.  The member [ok] the
    venue sends is one of those dropped. *)
Theorem X14_members_without_field_are_ignored :
  forall (kv : list (string * jvalue)) (v : Order),
    Decode decode_Order (Json (JObj kv)) v =
    Decode decode_Order
      (Json (JObj (filter (selects (find_field Order_fields Order_tag)) kv))) v /\
    find_field Order_fields Order_tag "ok" = None.
Proof.
  intros kv v. split; [|reflexivity].
  unfold Decode, decode_Order, decode_struct.
  now rewrite <- decode_members_selected.
Qed.

(** *** The sample program *)

Lemma call_NewOrder (p q : Z) (d : orderDirection) (t : orderType)
    (i : Instance) (hist : list event) :
  call (CallNewOrder p q d t) i hist =
    match NewOrder p q d t {| inst := i; past := hist; now := [] |} with
    | Ret v s => Ret (AnOrder v) s
    | Panic s => Panic s
    end.
Proof. reflexivity. Qed.

Lemma call_OrderStatus (n : Z) (i : Instance) (hist : list event) :
  call (CallOrderStatus n) i hist =
    match OrderStatus n {| inst := i; past := hist; now := [] |} with
    | Ret v s => Ret (AnOrder v) s
    | Panic s => Panic s
    end.
Proof. reflexivity. Qed.

Lemma call_CancelOrder (n : Z) (i : Instance) (hist : list event) :
  call (CallCancelOrder n) i hist =
    match CancelOrder n {| inst := i; past := hist; now := [] |} with
    | Ret v s => Ret (AnOrder v) s
    | Panic s => Panic s
    end.
Proof. reflexivity. Qed.

Lemma bind_at {A B : Type} (m : M A) (k : A -> M B) (s : State) :
  bind m k s =
    match m s with
    | Ret a s' => k a s'
    | Panic s' => Panic s'
    end.
Proof. reflexivity. Qed.

Lemma listed_target_same (op : Endpoint) (i i' : Instance) :
  account i' = account i -> venue i' = venue i -> symbol i' = symbol i ->
  listed_target op i' = listed_target op i.
Proof.
  intros Ha Hv Hs. destruct op; cbn [listed_target]; now rewrite ?Ha, ?Hv, ?Hs.
Qed.

(** What is known of a call once the endpoint behind it has returned. *)
Lemma returned_call_facts (op : Endpoint) (i : Instance) (hist : list event)
    (r : Result) (s : State) :
  call op i hist = Ret r s ->
  account (inst s) = account i /\ venue (inst s) = venue i /\
  symbol (inst s) = symbol i /\ past s = hist /\
  built (now s) = [listed_target op i].
Proof.
  intros E.
  pose proof (call_facts op i hist) as ((_ & _ & Ha & Hv & Hs & Hp) & _).
  pose proof (proj1 (requests_of_call op i hist)) as Hb.
  rewrite E in *. cbn [final events] in *. auto.
Qed.

(** X12. When the accumulator holds an error after [NewOrder], the sample
    program reports that error and does nothing more: no status is asked
    for and nothing is cancelled. *)
Theorem X12_main_stops_on_error :
  forall (LastPrice : Z) (i : Instance) (hist : list event) (e : goerror),
    err_after (call (CallNewOrder LastPrice 100 Buy Limit) i hist) = Some e ->
    events (main_run LastPrice i hist) =
      events (call (CallNewOrder LastPrice 100 Buy Limit) i hist) /\
    returned (main_run LastPrice i hist) =
      option_map (fun _ => [("we got an error:", ShownError (Some e))])
        (returned (call (CallNewOrder LastPrice 100 Buy Limit) i hist)).
Proof.
  intros p i hist e. rewrite call_NewOrder.
  unfold main_run, main_orders. rewrite !bind_at.
  destruct (NewOrder p 100 Buy Limit _) as [v s|s]; [|split; reflexivity].
  unfold err_after. cbn [final]. intros Herr.
  rewrite !bind_at. unfold Err. rewrite Herr.
  rewrite !bind_at. cbv beta. rewrite Herr. split; reflexivity.
Qed.

(** X13. When [NewOrder] leaves the accumulator empty and the sample
    program runs to its end, it has built three requests: the order, then
    the status and the cancellation of the order whose id [NewOrder]
    returned, the cancellation whatever the status call left. *)
Theorem X13_main_asks_for_and_cancels_the_order_made :
  forall (LastPrice : Z) (i : Instance) (hist : list event),
    err_after (call (CallNewOrder LastPrice 100 Buy Limit) i hist) = None ->
    panicked (main_run LastPrice i hist) = false ->
    exists v st ca : Order,
      returned (call (CallNewOrder LastPrice 100 Buy Limit) i hist) = Some (AnOrder v) /\
      returned (main_run LastPrice i hist) =
        Some [ ("created order:", ShownOrder v);
               ("waiting for 5 seconds before querying order status", ShownNothing);
               ("status of order:", ShownOrder st);
               ("canceled order:", ShownOrder ca) ] /\
      built (events (main_run LastPrice i hist)) =
        [ listed_target (CallNewOrder LastPrice 100 Buy Limit) i;
          listed_target (CallOrderStatus (ID v)) i;
          listed_target (CallCancelOrder (ID v)) i ].
Proof.
  intros p i hist.
  pose proof (returned_call_facts (CallNewOrder p 100 Buy Limit) i hist) as F1.
  rewrite call_NewOrder in *.
  unfold main_run, main_orders. rewrite !bind_at.
  destruct (NewOrder p 100 Buy Limit _) as [v [i1 p1 n1]|s1]; [|discriminate].
  destruct (F1 _ _ eq_refl) as (Ha1 & Hv1 & Hs1 & Hp1 & Hb1).
  cbn [inst past now] in *. subst p1.
  unfold err_after. cbn [final inst]. intros Hok.
  rewrite !bind_at. unfold Err. cbn [inst]. rewrite Hok.
  cbv zeta. rewrite !bind_at.
  rewrite (framed_OrderStatus (ID v) i1 hist n1).
  pose proof (returned_call_facts (CallOrderStatus (ID v)) i1 (hist ++ n1)%list) as F2.
  rewrite call_OrderStatus in F2.
  destruct (OrderStatus (ID v) _) as [st [i2 p2 n2]|s2]; [|discriminate].
  destruct (F2 _ _ eq_refl) as (Ha2 & Hv2 & Hs2 & Hp2 & Hb2).
  cbn [inst past now reframe] in *. rewrite !bind_at.
  rewrite (framed_CancelOrder (ID v) i2 hist (n1 ++ n2)%list).
  pose proof (returned_call_facts (CallCancelOrder (ID v)) i2 (hist ++ (n1 ++ n2))%list) as F3.
  rewrite call_CancelOrder in F3.
  destruct (CancelOrder (ID v) _) as [ca [i3 p3 n3]|s3]; [|discriminate].
  destruct (F3 _ _ eq_refl) as (_ & _ & _ & _ & Hb3).
  cbn [inst past now reframe] in *. intros _.
  exists v, st, ca. repeat split.
  unfold events, ret. cbn [final now]. rewrite !built_app, Hb1, Hb2, Hb3. cbn [app].
  rewrite (listed_target_same (CallOrderStatus (ID v)) i i1) by assumption.
  rewrite (listed_target_same (CallCancelOrder (ID v)) i i2) by congruence.
  reflexivity.
Qed.

End Properties.

(** ** The theorems at work *)

(** A venue that refuses with status 401 leaves its error, whatever the
    endpoint. *)
Lemma C2_witness :
  on_all_five (fun op =>
    err_after (call (X := sample_lib) op (sample_instance (always refused)) [])
    = Some (ApiError "bad key" "401 Unauthorized")).
Proof.
  unfold on_all_five; (split; [|split; [|split; [|split]]]);
    match goal with
    | |- context [call ?op _ _] =>
      refine (C2_non200_records_venue_error (X := sample_lib) op
              (sample_instance (always refused)) [] refused_response
              (fun _ _ => eq_refl) eq_refl _ eq_refl)
    end;
    discriminate.
Defined.

(** A list of orders cut short on a 200 response leaves no error. *)
Lemma C3_witness :
  err_after (call (X := sample_lib) CallAccountOrderStatus (sample_instance (always cut_short)) [])
    = None /\
  reported (events (call (X := sample_lib) CallAccountOrderStatus
                      (sample_instance (always cut_short)) [])) = [].
Proof.
  refine (C3_list_endpoints_drop_decode_error (X := sample_lib) CallAccountOrderStatus
            (sample_instance (always cut_short)) [] _ _ (LibError "io" "unexpected EOF")
            eq_refl eq_refl eq_refl eq_refl eq_refl).
Defined.

(** A refused call returns the zero value, whatever the endpoint. *)
Lemma C4_witness :
  on_all_five (fun op =>
    returned (call (X := sample_lib) op (sample_instance (always refused)) [])
    = Some (zero_result op)).
Proof.
  unfold on_all_five; (split; [|split; [|split; [|split]]]);
    match goal with
    | |- context [call ?op _ _] =>
      refine (C4_non200_returns_zero_value (X := sample_lib) op
              (sample_instance (always refused)) [] refused_response None
              (fun _ _ => eq_refl) eq_refl _)
    end;
    discriminate.
Defined.

(** With the venue out of reach every endpoint records the error of the
    round trip and panics. *)
Lemma C6_witness :
  on_all_five (fun op =>
    panicked (call (X := sample_lib) op (sample_instance (always unreachable)) []) = true /\
    returned (call (X := sample_lib) op (sample_instance (always unreachable)) []) = None /\
    reported (events (call (X := sample_lib) op (sample_instance (always unreachable)) []))
      = [LibError "net/http" "connection refused"] /\
    err_after (call (X := sample_lib) op (sample_instance (always unreachable)) [])
      = Some (LibError "net/http" "connection refused")).
Proof.
  unfold on_all_five; (split; [|split; [|split; [|split]]]);
    match goal with
    | |- context [call ?op _ _] =>
      refine (C6_transport_failure_panics (X := sample_lib) op
              (sample_instance (always unreachable)) []
              (LibError "net/http" "connection refused") (fun _ _ => eq_refl) eq_refl)
    end.
Defined.

(** With the venue out of reach the status of an order panics, and the
    error of the round trip is recorded all the same: it was handed to the
    accumulator before the nil response was touched. *)
Lemma C6_counterexample :
  panicked (call (X := sample_lib) (CallOrderStatus 7)
              (sample_instance (always unreachable)) []) = true /\
  reported (events (call (X := sample_lib) (CallOrderStatus 7)
                      (sample_instance (always unreachable)) []))
    = [LibError "net/http" "connection refused"] /\
  err_after (call (X := sample_lib) (CallOrderStatus 7)
               (sample_instance (always unreachable)) [])
    = Some (LibError "net/http" "connection refused").
Proof. repeat split; reflexivity. Qed.

(** The key the venue sends, [originalQty], leaves the field at zero. *)
Lemma C7_witness :
  OriginalQuantity
    (fst (Decode (decode_Order (X := sample_lib))
            (Json (JObj [("originalQty", JInt 100); ("qty", JInt 100)])) zeroOrder)) = 0.
Proof.
  refine (proj1 (C7_OriginalQuantity_only_under_its_tag (X := sample_lib)
                   (Json (JObj [("originalQty", JInt 100); ("qty", JInt 100)]))) eq_refl).
Defined.

(** A key that is not literally [orignialQty] fills the field: matching is
    blind to the case of letters. *)
Lemma C7_counterexample :
  OriginalQuantity
    (fst (Decode (decode_Order (X := sample_lib))
            (Json (JObj [("ORIGNIALQTY", JInt 5)])) zeroOrder)) = 5 /\
  ~ In "orignialQty" (map fst [("ORIGNIALQTY", JInt 5)]).
Proof.
  split; [reflexivity|]. cbn. intros [H|[]]. discriminate H.
Qed.

(** The body of a limit buy. *)
Lemma C8_witness :
  round_trips (events (call (X := sample_lib) (CallNewOrder 100 10 Buy Limit)
                         (sample_instance (always refused)) []))
    = [(sample_order, refused)] /\
  ReqBody sample_order =
    Some (JObj [ ("account", JStr "EXB123456");
                 ("venue", JStr "TESTEX");
                 ("symbol", JStr "FOOBAR");
                 ("price", JInt 100);
                 ("qty", JInt 10);
                 ("direction", JStr "buy");
                 ("orderType", JStr "limit") ]).
Proof.
  split; [reflexivity|].
  exact (proj1 (C8_constants_in_request_body (X := sample_lib) 100 10 Buy Limit
                  (sample_instance (always refused)) [] sample_order refused eq_refl)).
Defined.

(** With a venue that makes the URL unparsable, a call sends no request at
    all: it panics on the nil request. *)
Lemma C9_counterexample :
  round_trips (events (call (X := sample_lib) (CallOrderStatus 7) bad_venue [])) = [] /\
  panicked (call (X := sample_lib) (CallOrderStatus 7) bad_venue []) = true.
Proof. split; reflexivity. Qed.

(** A refused order leaves the venue's error. *)
Lemma C9_witness :
  err_after (call (X := sample_lib) (CallNewOrder 100 10 Buy Limit)
               (sample_instance (always refused)) [])
  = Some (ApiError "bad key" "401 Unauthorized").
Proof.
  refine (proj2 (proj2 (C9_no_retry_one_error_field (X := sample_lib)
            (CallNewOrder 100 10 Buy Limit) (sample_instance (always refused)) []))
            _ _ eq_refl _ eq_refl).
  discriminate.
Defined.

(** *** Small runs *)

Example Itoa_samples :
  Strconv.Itoa 0 = "0" /\ Strconv.Itoa 42 = "42" /\ Strconv.Itoa (-7) = "-7".
Proof. repeat split; reflexivity. Qed.

(** Keys are matched without regard to case, and with the long s as [s]. *)
Example equalFold_samples :
  equalFold "orignialQty" "ORIGNIALQTY" = true /\
  equalFold "orignialQty" "originalQty" = false /\
  equalFold "symbol" (String (ascii_of_N 197) (String (ascii_of_N 191) "YMBOL")) = true.
Proof. repeat split; reflexivity. Qed.

(** The misspelled key itself fills the field. *)
Example literal_key_fills :
  OriginalQuantity
    (fst (Decode (decode_Order (X := sample_lib))
            (Json (JObj [("orignialQty", JInt 5)])) zeroOrder)) = 5.
Proof. reflexivity. Qed.

(** An order the venue accepts: the result is the decoded order, and the
    accumulator stays empty. *)
Example NewOrder_accepted :
  let reply :=
    answer 200 "200 OK"
      (Json (JObj [ ("ok", JBool true); ("symbol", JStr "FOOBAR");
                    ("originalQty", JInt 10); ("qty", JInt 10);
                    ("id", JInt 12345); ("open", JBool true) ])) in
  let o := call (X := sample_lib) (CallNewOrder 100 10 Buy Limit)
             (sample_instance (always reply)) [] in
  option_map
    (fun r => match r with
              | AnOrder v => (Symbol v, ID v, Quantity v, OriginalQuantity v, Open v)
              | SomeOrders _ => ("", 0, 0, 0, false)
              end) (returned o)
    = Some ("FOOBAR", 12345, 10, 0, true) /\
  err_after o = None /\
  round_trips (events o) = [(sample_order, reply)].
Proof. repeat split; reflexivity. Qed.

(** The discipline does rule traces out: one that sends the request under
    the lock, and one that reads the venue after the lock is released. *)
Example lock_discipline_rejects :
  lock_discipline 0 [EvRLock; EvRead Fvenue; EvDo sample_order refused; EvRUnlock] = false /\
  lock_discipline 0 [EvRLock; EvRUnlock; EvRead Fvenue; EvDo sample_order refused] = false.
Proof. split; reflexivity. Qed.

(** *** The further theorems at work *)

(** An answer of the venue that holds an order. *)
Definition accepted : DoResult :=
  answer 200 "200 OK"
    (Json (JObj [ ("ok", JBool true); ("symbol", JStr "FOOBAR");
                  ("originalQty", JInt 10); ("qty", JInt 10);
                  ("id", JInt 12345); ("open", JBool true) ])).

Definition accepted_response : Response :=
  {| StatusCode := 200; Status := "200 OK";
     Body := Json (JObj [ ("ok", JBool true); ("symbol", JStr "FOOBAR");
                          ("originalQty", JInt 10); ("qty", JInt 10);
                          ("id", JInt 12345); ("open", JBool true) ]) |}.

Definition sample_request : orderRequest :=
  {| rq_Account := "EXB123456"; rq_Venue := "TESTEX"; rq_Symbol := "FOOBAR";
     rq_Price := 100; rq_Quantity := 10; rq_Direction := Buy; rq_OrderType := Limit |}.

(** Against a venue that answers with an order, every endpoint returns
    what the decoder makes of that answer. *)
Lemma X1_witness :
  on_all_five (fun op =>
    returned (call (X := sample_lib) op (sample_instance (always accepted)) [])
    = Some (success_value (X := sample_lib) op (Body accepted_response))).
Proof.
  unfold on_all_five; (split; [|split; [|split; [|split]]]);
    match goal with
    | |- context [call ?op _ _] =>
      refine (X1_success_returns_decoded_value (X := sample_lib) op
              (sample_instance (always accepted)) [] accepted_response None
              (fun _ _ => eq_refl) eq_refl eq_refl)
    end.
Defined.

(** A refusing venue leaves its error, whatever the endpoint. *)
Lemma X2_witness :
  on_all_five (fun op =>
    err_after (call (X := sample_lib) op (sample_instance (always refused)) [])
    = Some (ApiError "bad key" "401 Unauthorized")).
Proof.
  unfold on_all_five; (split; [|split; [|split; [|split]]]);
    match goal with
    | |- context [call ?op _ _] =>
      refine (X2_accumulator_after_answer (X := sample_lib) op
              (sample_instance (always refused)) [] refused_response None
              (fun _ _ => eq_refl) eq_refl)
    end.
Defined.

(** On the sample instance every endpoint sends one request, under the
    key of the instance. *)
Lemma X3_witness :
  on_all_five (fun op =>
    exists (req : Request) (res : DoResult),
      round_trips (events (call (X := sample_lib) op (sample_instance (always refused)) []))
        = [(req, res)] /\
      Header req = [("X-Starfighter-Authorization", ["key"])] /\
      (Method req, URL req) =
        listed_target (X := sample_lib) op (sample_instance (always refused)) /\
      (ReqBody req = None <->
       match op with CallNewOrder _ _ _ _ => False | _ => True end)).
Proof.
  unfold on_all_five; (split; [|split; [|split; [|split]]]);
    match goal with
    | |- context [call ?op _ _] =>
      refine (X3_header_and_body_of_request (X := sample_lib) op
              (sample_instance (always refused)) [] eq_refl)
    end.
Defined.

(** The venue with the broken escape: a panic, and nothing sent. *)
Lemma X6_witness :
  panicked (call (X := sample_lib) CallStockOrderStatus bad_venue []) = true /\
  round_trips (events (call (X := sample_lib) CallStockOrderStatus bad_venue [])) = [] /\
  reported (events (call (X := sample_lib) CallStockOrderStatus bad_venue [])) = [] /\
  err_after (call (X := sample_lib) CallStockOrderStatus bad_venue []) = None.
Proof.
  refine (X6_unparsable_url (X := sample_lib) CallStockOrderStatus bad_venue [] eq_refl).
Defined.

(** The sample order request read back. *)
Lemma X8_witness :
  Decode (decode_Order (X := sample_lib))
    (Json (fst (Marshal_orderRequest sample_request))) zeroOrder =
  ({| Account := "EXB123456"; Venue := "TESTEX"; Symbol := "FOOBAR";
      Price := 100; OriginalQuantity := 0; Quantity := 10;
      Direction := "buy"; OrderType := "limit";
      ID := 0; TS := zeroTime; Fills := None; TotalFilled := 0; Open := false |},
   None).
Proof.
  refine (X8_order_request_reads_back (X := sample_lib) sample_request eq_refl eq_refl).
Defined.

(** The order the venue holds comes back without its original quantity. *)
Lemma X9_witness :
  Forall (fun o => OriginalQuantity o = 0)
    (orders_of (success_value (X := sample_lib) (CallOrderStatus 12345)
                  (Body accepted_response))).
Proof.
  refine (X9_returned_orders_have_no_original_quantity (X := sample_lib)
            (CallOrderStatus 12345) (sample_instance (always accepted)) []
            _ accepted_response None _ eq_refl eq_refl eq_refl eq_refl).
Defined.

(** A body cut short: every endpoint returns the zero value; the order
    endpoints record the scanner's error, the list endpoints nothing. *)
Lemma X10_witness :
  on_all_five (fun op =>
    returned (call (X := sample_lib) op (sample_instance (always cut_short)) [])
      = Some (zero_result op) /\
    err_after (call (X := sample_lib) op (sample_instance (always cut_short)) [])
      = if list_endpoint op then None else Some (LibError "io" "unexpected EOF")).
Proof.
  unfold on_all_five; (split; [|split; [|split; [|split]]]);
    match goal with
    | |- context [call ?op _ _] =>
      refine (X10_body_that_is_no_object (X := sample_lib) op
              (sample_instance (always cut_short)) [] cut_short_response
              (fun _ _ => eq_refl) eq_refl eq_refl eq_refl eq_refl)
    end.
Defined.

(** The sample program against a venue that refuses the order. *)
Lemma X12_witness :
  events (main_run (X := sample_lib) 100 (sample_instance (always refused)) []) =
    events (call (X := sample_lib) (CallNewOrder 100 100 Buy Limit)
              (sample_instance (always refused)) []) /\
  returned (main_run (X := sample_lib) 100 (sample_instance (always refused)) []) =
    Some [("we got an error:", ShownError (Some (ApiError "bad key" "401 Unauthorized")))].
Proof.
  refine (X12_main_stops_on_error (X := sample_lib) 100
            (sample_instance (always refused)) []
            (ApiError "bad key" "401 Unauthorized") eq_refl).
Defined.

(** The sample program against a venue that accepts the order. *)
Lemma X13_witness :
  exists v st ca : Order (X := sample_lib),
    returned (call (X := sample_lib) (CallNewOrder 100 100 Buy Limit)
                (sample_instance (always accepted)) []) = Some (AnOrder v) /\
    returned (main_run (X := sample_lib) 100 (sample_instance (always accepted)) []) =
      Some [ ("created order:", ShownOrder v);
             ("waiting for 5 seconds before querying order status", ShownNothing);
             ("status of order:", ShownOrder st);
             ("canceled order:", ShownOrder ca) ] /\
    built (events (main_run (X := sample_lib) 100 (sample_instance (always accepted)) [])) =
      [ listed_target (X := sample_lib) (CallNewOrder 100 100 Buy Limit)
          (sample_instance (always accepted));
        listed_target (X := sample_lib) (CallOrderStatus (ID v))
          (sample_instance (always accepted));
        listed_target (X := sample_lib) (CallCancelOrder (ID v))
          (sample_instance (always accepted)) ].
Proof.
  refine (X13_main_asks_for_and_cancels_the_order_made (X := sample_lib) 100
            (sample_instance (always accepted)) [] eq_refl eq_refl).
Defined.

(** The sample program against the accepting venue, by what it builds. *)
Example main_run_accepted :
  built (events (main_run (X := sample_lib) 100 (sample_instance (always accepted)) [])) =
    [ ("POST", "https://api.stockfighter.io/ob/api/venues/TESTEX/stocks/FOOBAR/orders");
      ("GET", "https://api.stockfighter.io/ob/api/venues/TESTEX/stocks/FOOBAR/orders/12345");
      ("DELETE", "https://api.stockfighter.io/ob/api/venues/TESTEX/stocks/FOOBAR/orders/12345") ].
Proof. reflexivity. Qed.

(** Two calls after a refused one: the first error stays. *)
Example session_keeps_refusal :
  err_after (session (X := sample_lib)
               [CallNewOrder 100 10 Buy Limit; CallAccountOrderStatus; CallCancelOrder 7]
               (sample_instance (always refused)) [])
  = Some (ApiError "bad key" "401 Unauthorized").
Proof. reflexivity. Qed.

(** *** The library model on small inputs *)

(** Text that is UTF-8 is written as it is; a byte that starts no
    well-formed sequence (a stray byte, a sequence cut short, a surrogate)
    is written as U+FFFD. *)
Example toValidUTF8_samples :
  toValidUTF8 "EXB123456" = "EXB123456" /\
  toValidUTF8 (String (ascii_of_N 195) (String (ascii_of_N 169) "!"))
    = String (ascii_of_N 195) (String (ascii_of_N 169) "!") /\
  toValidUTF8 (String (ascii_of_N 255) "a") = replacement "a" /\
  toValidUTF8 (String (ascii_of_N 226) (String (ascii_of_N 130) ""))
    = replacement (replacement "") /\
  toValidUTF8 (String (ascii_of_N 237) (String (ascii_of_N 160) (String (ascii_of_N 128) "")))
    = replacement (replacement (replacement "")).
Proof. repeat split; reflexivity. Qed.

(** A member written twice: the second array is decoded onto the elements
    the first one left. *)
Example repeated_member_meets_earlier_elements :
  Fills (fst (Decode (decode_Order (X := sample_lib))
                (Json (JObj [ ("fills", JArr [JObj [("price", JInt 5); ("qty", JInt 1)]]);
                              ("fills", JArr [JObj [("price", JInt 7)]]) ]))
                zeroOrder))
  = Some [ {| Fill_Price := 7; Fill_Quantity := 1; Fill_TS := zeroTime |} ].
Proof. reflexivity. Qed.

(** A number too large for [int] is reported with its literal, and the
    field keeps its value. *)
Example number_out_of_range :
  let r := Decode (decode_Order (X := sample_lib))
             (Json (JObj [("price", JInt 9223372036854775808); ("id", JInt 7)])) zeroOrder in
  (Price (fst r), ID (fst r), snd r)
  = (0, 7, Some (UnmarshalTypeError "number 9223372036854775808" "int")).
Proof. reflexivity. Qed.

End Api.
